(** * C_Mutex: the error-checking mutex wrapper of [src/mutex.c]

    The four public operations ([createMutex], [lockMutex], [unlockMutex],
    [destroyMutex]) and the two attribute helpers are embedded as
    computations over an explicit [world]: the heap of malloc'ed blocks, the
    thread-local [errno], and the sequence of what the code did to the
    outside (calls into libc, assignments to [errno], diagnostics handed to
    [printError]).  The pthread primitives are modelled after POSIX; a call
    that cannot return is an [outcome] of its own. *)

From stdpp Require Import gmap strings list fin_maps.
From Stdlib Require Import ZArith.

Local Open Scope Z_scope.

(** ** Data *)

(** A thread of execution; every operation is run by one. *)
Abbreviation tid := nat.

(** A non-null address; a C pointer is [option addr], [None] being [NULL]. *)
Abbreviation addr := positive.
Abbreviation ptr := (option addr).
Abbreviation NULL := (@None addr).

(** The error numbers of <errno.h> the primitives report (Linux values). *)
Definition EPERM : Z := 1.
Definition ENOMEM : Z := 12.
Definition EBUSY : Z := 16.
Definition EINVAL : Z := 22.
Definition EDEADLK : Z := 35.

(** The mutex types of <pthread.h> that occur: the default one, which
    [pthread_mutexattr_init] installs, and the one [createMutexAttribute]
    asks for. *)
Inductive mutex_type := PTHREAD_MUTEX_NORMAL | PTHREAD_MUTEX_ERRORCHECK.

Global Instance mutex_type_eq_dec : EqDecision mutex_type.
Proof. solve_decision. Defined.

(** What a malloc'ed block holds. *)
Inductive block :=
  | Uninit
  | Attr (type : mutex_type)
  | Mutex (type : mutex_type) (owner : option tid).

Global Instance block_eq_dec : EqDecision block.
Proof. solve_decision. Defined.

(** One call of [printError(code, file, function, message)]. *)
Record report := Report {
  rep_code : Z;
  rep_file : string;
  rep_function : string;
  rep_message : option string }.

(** One call into libc, with its result. *)
Inductive oscall :=
  | Malloc (result : ptr)
  | Free (a : addr)
  | MutexattrInit (a : addr) (result : Z)
  | MutexattrSettype (a : addr) (type : mutex_type) (result : Z)
  | MutexattrDestroy (a : addr) (result : Z)
  | MutexInit (m : addr) (attr : ptr) (result : Z)
  | MutexLock (t : tid) (m : addr) (result : Z)
  | MutexTrylock (t : tid) (m : addr) (result : Z)
  | MutexUnlock (t : tid) (m : addr) (result : Z)
  | MutexDestroy (m : addr) (result : Z).

(** What a run leaves behind, in order. *)
Inductive event :=
  | Call (c : oscall)
  | Assign (t : tid) (e : Z)      (* [errno = e] by thread [t] *)
  | Print (r : report).

(** [faults] is the plan of the failures that come from outside the model
    (memory, system resources): each call of a primitive that can fail for
    such a reason takes the head of the plan; [0], or an empty plan, lets the
    call go through. *)
Record world := World {
  heap : gmap addr block;
  errno_tls : gmap tid Z;
  faults : list Z;
  trace : list event }.

(** ** Computations *)

Inductive outcome (A : Type) :=
  | Ret (a : A) (w : world)   (* the call returns *)
  | Blocked                   (* the calling thread waits for the mutex *)
  | Undefined.                (* undefined behaviour *)
Arguments Ret {A} a w.
Arguments Blocked {A}.
Arguments Undefined {A}.

Definition M (A : Type) : Type := world → outcome A.

Global Instance M_ret : MRet M := λ A a w, Ret a w.
Global Instance M_bind : MBind M := λ A B f m w,
  match m w with
  | Ret a w' => f a w'
  | Blocked => Blocked
  | Undefined => Undefined
  end.

Definition undefined {A} : M A := λ _, Undefined.
Definition blocked {A} : M A := λ _, Blocked.

Definition get_heap : M (gmap addr block) := λ w, Ret (heap w) w.
Definition put_heap (h : gmap addr block) : M unit := λ w,
  Ret () (World h (errno_tls w) (faults w) (trace w)).

(** [errno] read as an rvalue, and assigned, by thread [t]. *)
Definition errno_of (t : tid) (w : world) : Z := default 0 (errno_tls w !! t).
Definition get_errno (t : tid) : M Z := λ w, Ret (errno_of t w) w.
Definition emit (e : event) : M unit := λ w,
  Ret () (World (heap w) (errno_tls w) (faults w) (trace w ++ [e])).

Definition set_errno (t : tid) (e : Z) : M unit := λ w,
  Ret () (World (heap w) (<[t := e]> (errno_tls w)) (faults w)
            (trace w ++ [Assign t e])).

Definition called (c : oscall) : M unit := emit (Call c).

(** The fault the next fallible call meets, and its consumption. *)
Definition peek_fault (w : world) : Z := default 0 (head (faults w)).
Definition next_fault : M Z := λ w,
  Ret (peek_fault w) (World (heap w) (errno_tls w) (tail (faults w)) (trace w)).

(** ** The collaborators: libc *)

(** The primitives, after POSIX.  [malloc], the attribute calls,
    [pthread_mutex_init] and [pthread_mutex_destroy] can fail for reasons
    outside the model and take the next planned fault; a call that fails
    changes nothing (but [errno], for [malloc]).  What the lock, trylock and
    unlock calls answer depends on the type and the owner of the mutex
    alone.  A call on a block that is not what the primitive expects is
    undefined behaviour.  Operations run one at a time; other threads are
    present as owners of mutexes. *)

Definition malloc (t : tid) : M ptr :=
  c ← next_fault;
  if decide (c = 0) then
    h ← get_heap;
    let a := fresh (dom h) in
    put_heap (<[a := Uninit]> h);;
    called (Malloc (Some a));;
    mret (Some a)
  else
    set_errno t ENOMEM;;
    called (Malloc NULL);;
    mret NULL.

Definition free (a : addr) : M unit :=
  h ← get_heap;
  match h !! a with
  | Some _ => put_heap (delete a h);; called (Free a)
  | None => undefined
  end.

Definition pthread_mutexattr_init (a : addr) : M Z :=
  h ← get_heap;
  match h !! a with
  | Some Uninit =>
      c ← next_fault;
      (if decide (c = 0) then put_heap (<[a := Attr PTHREAD_MUTEX_NORMAL]> h)
       else mret ());;
      called (MutexattrInit a c);;
      mret c
  | _ => undefined
  end.

Definition pthread_mutexattr_settype (a : addr) (type : mutex_type) : M Z :=
  h ← get_heap;
  match h !! a with
  | Some (Attr _) =>
      c ← next_fault;
      (if decide (c = 0) then put_heap (<[a := Attr type]> h) else mret ());;
      called (MutexattrSettype a type c);;
      mret c
  | _ => undefined
  end.

Definition pthread_mutexattr_destroy (a : addr) : M Z :=
  h ← get_heap;
  match h !! a with
  | Some (Attr _) =>
      c ← next_fault;
      (if decide (c = 0) then put_heap (<[a := Uninit]> h) else mret ());;
      called (MutexattrDestroy a c);;
      mret c
  | _ => undefined
  end.

(** The type an attribute pointer stands for; [NULL] asks for the default. *)
Definition attr_type (h : gmap addr block) (attr : ptr) : option mutex_type :=
  match attr with
  | None => Some PTHREAD_MUTEX_NORMAL
  | Some a => match h !! a with Some (Attr ty) => Some ty | _ => None end
  end.

Definition pthread_mutex_init (m : addr) (attr : ptr) : M Z :=
  h ← get_heap;
  match h !! m, attr_type h attr with
  | Some Uninit, Some ty =>
      c ← next_fault;
      (if decide (c = 0) then put_heap (<[m := Mutex ty None]> h) else mret ());;
      called (MutexInit m attr c);;
      mret c
  | _, _ => undefined
  end.

(** Locking depends on the mutex alone.  A thread that asks for a mutex
    another thread holds waits; one that asks again for its own is told
    [EDEADLK] by an error-checking mutex and waits for ever on a normal
    one. *)
Definition pthread_mutex_lock (t : tid) (m : addr) : M Z :=
  h ← get_heap;
  match h !! m with
  | Some (Mutex ty None) =>
      put_heap (<[m := Mutex ty (Some t)]> h);;
      called (MutexLock t m 0);;
      mret 0
  | Some (Mutex ty (Some o)) =>
      if decide (o = t) then
        match ty with
        | PTHREAD_MUTEX_ERRORCHECK => called (MutexLock t m EDEADLK);; mret EDEADLK
        | PTHREAD_MUTEX_NORMAL => blocked
        end
      else blocked
  | _ => undefined
  end.

Definition pthread_mutex_trylock (t : tid) (m : addr) : M Z :=
  h ← get_heap;
  match h !! m with
  | Some (Mutex ty None) =>
      put_heap (<[m := Mutex ty (Some t)]> h);;
      called (MutexTrylock t m 0);;
      mret 0
  | Some (Mutex ty (Some _)) => called (MutexTrylock t m EBUSY);; mret EBUSY
  | _ => undefined
  end.

Definition pthread_mutex_unlock (t : tid) (m : addr) : M Z :=
  h ← get_heap;
  match h !! m with
  | Some (Mutex ty o) =>
      if decide (o = Some t) then
        put_heap (<[m := Mutex ty None]> h);;
        called (MutexUnlock t m 0);;
        mret 0
      else
        match ty with
        | PTHREAD_MUTEX_ERRORCHECK => called (MutexUnlock t m EPERM);; mret EPERM
        | PTHREAD_MUTEX_NORMAL => undefined
        end
  | _ => undefined
  end.

(** Destroying a locked mutex is undefined, as the comment in
    [destroyMutex] recalls. *)
Definition pthread_mutex_destroy (m : addr) : M Z :=
  h ← get_heap;
  match h !! m with
  | Some (Mutex ty None) =>
      c ← next_fault;
      (if decide (c = 0) then put_heap (<[m := Uninit]> h) else mret ());;
      called (MutexDestroy m c);;
      mret c
  | _ => undefined
  end.

(** ** The collaborator: logger.h *)

(** Modelled from the spec: [printError] of logger.h, which is not part of
    the sources.  It takes an error code, a source-location tag, an
    operation tag and an optional message, has no return value, does not
    abort, and is called purely for observability: the call is recorded and
    nothing else changes. *)
Definition printError (code : Z) (file func : string) (message : option string)
  : M unit := emit (Print (Report code file func message)).

(** The diagnostics reported so far. *)
Definition reports (evs : list event) : list report :=
  omap (λ e, match e with Print r => Some r | _ => None end) evs.
Definition log (w : world) : list report := reports (trace w).

(** The expansion of [__FILE__] in mutex.c; [__PRETTY_FUNCTION__], in C the
    name of the enclosing function, is written out at each call. *)
Definition __FILE__ : string := "mutex.c".

(** ** mutex.c *)

(** [pthread_mutexattr_t *createMutexAttribute()] *)
Definition createMutexAttribute (t : tid) : M ptr :=
  attribute ← malloc t;
  match attribute with
  | None =>
      e ← get_errno t;
      printError e __FILE__ "createMutexAttribute"
        (Some "Could not allocate memory for attribute.");;
      mret NULL
  | Some a =>
      r ← pthread_mutexattr_init a;
      set_errno t r;;
      if decide (0 ≠ r) then
        e ← get_errno t;
        printError e __FILE__ "createMutexAttribute"
          (Some "Could not initialize attribute.");;
        free a;;
        mret NULL
      else
        r ← pthread_mutexattr_settype a PTHREAD_MUTEX_ERRORCHECK;
        set_errno t r;;
        if decide (0 ≠ r) then
          e ← get_errno t;
          printError e __FILE__ "createMutexAttribute"
            (Some "Could not set attribute type.");;
          free a;;
          mret NULL
        else mret (Some a)
  end.

(** [int destroyMutexAttribute(pthread_mutexattr_t *attribute)] *)
Definition destroyMutexAttribute (t : tid) (attribute : ptr) : M Z :=
  match attribute with
  | None =>
      printError 0 __FILE__ "destroyMutexAttribute"
        (Some "Could not destroy attribute as it is null.");;
      mret 1
  | Some a =>
      r ← pthread_mutexattr_destroy a;
      set_errno t r;;
      if decide (0 ≠ r) then
        e ← get_errno t;
        printError e __FILE__ "destroyMutexAttribute"
          (Some "Could not destroy attribute.");;
        mret 1
      else
        free a;;
        mret 0
  end.

(** [int lockMutex(pthread_mutex_t *mutex)] *)
Definition lockMutex (t : tid) (mutex : ptr) : M Z :=
  match mutex with
  | None =>
      printError 0 __FILE__ "lockMutex"
        (Some "Could not lock mutex as it is null.");;
      mret 1
  | Some m =>
      r ← pthread_mutex_lock t m;
      set_errno t r;;
      if decide (0 ≠ r) then
        e ← get_errno t;
        printError e __FILE__ "lockMutex" (Some "Could not lock mutex.");;
        mret 1
      else mret 0
  end.

(** [int unlockMutex(pthread_mutex_t *mutex)] *)
Definition unlockMutex (t : tid) (mutex : ptr) : M Z :=
  match mutex with
  | None =>
      printError 0 __FILE__ "unlockMutex"
        (Some "Could not unlock mutex as it is null.");;
      mret 1
  | Some m =>
      r ← pthread_mutex_unlock t m;
      set_errno t r;;
      if decide (r ≠ 0) then
        e ← get_errno t;
        printError e __FILE__ "unlockMutex" (Some "Could not unlock mutex.");;
        mret 1
      else mret 0
  end.

(** [pthread_mutex_t* createMutex()] *)
Definition createMutex (t : tid) : M ptr :=
  attribute ← createMutexAttribute t;
  match attribute with
  | None =>
      printError 0 __FILE__ "createMutex" (Some "Could not create attribute.");;
      mret NULL
  | Some _ =>
      mutex ← malloc t;
      match mutex with
      | None =>
          e ← get_errno t;
          printError e __FILE__ "createMutex"
            (Some "Could not allocate memory for mutex.");;
          r ← destroyMutexAttribute t attribute;
          (if decide (0 ≠ r) then printError 0 __FILE__ "createMutex" None
           else mret ());;
          mret NULL
      | Some m =>
          r ← pthread_mutex_init m attribute;
          set_errno t r;;
          if decide (0 ≠ r) then
            e ← get_errno t;
            printError e __FILE__ "createMutex"
              (Some "Could not initialize mutex.");;
            r ← destroyMutexAttribute t attribute;
            (if decide (0 ≠ r) then printError 0 __FILE__ "createMutex" None
             else mret ());;
            free m;;
            mret NULL
          else
            r ← destroyMutexAttribute t attribute;
            if decide (0 ≠ r) then
              printError 0 __FILE__ "createMutex" None;;
              free m;;
              mret NULL
            else mret (Some m)
      end
  end.

(** [int destroyMutex(pthread_mutex_t * mutex)] *)
Definition destroyMutex (t : tid) (mutex : ptr) : M Z :=
  match mutex with
  | None =>
      printError 0 __FILE__ "destroyMutex"
        (Some "Could not destroy mutex as it is null.");;
      mret 1
  | Some m =>
      r ← pthread_mutex_trylock t m;
      set_errno t r;;
      if decide (0 ≠ r) then
        e ← get_errno t;
        printError e __FILE__ "destroyMutex"
          (Some "Could not destroy mutex as it is locked.");;
        mret 1
      else
        r ← unlockMutex t mutex;
        if decide (0 ≠ r) then
          printError 0 __FILE__ "destroyMutex" None;;
          mret 1
        else
          r ← pthread_mutex_destroy m;
          set_errno t r;;
          if decide (0 ≠ r) then
            e ← get_errno t;
            printError e __FILE__ "destroyMutex"
              (Some "Could not destroy mutex.");;
            mret 1
          else
            free m;;
            mret 0
  end.

(** ** The state of a handle *)

Inductive handle_state := UNINITIALIZED | UNLOCKED | LOCKED (owner : tid).

(** A handle is initialized when it points to an error-checking mutex that
    [pthread_mutex_init] has set up and nothing has torn down since. *)
Definition state_of (w : world) (mutex : ptr) : handle_state :=
  match mutex with
  | None => UNINITIALIZED
  | Some m =>
      match heap w !! m with
      | Some (Mutex PTHREAD_MUTEX_ERRORCHECK None) => UNLOCKED
      | Some (Mutex PTHREAD_MUTEX_ERRORCHECK (Some o)) => LOCKED o
      | _ => UNINITIALIZED
      end
  end.




(** ** Observations on a run *)

(** Total correctness: the computation returns, and [P] holds of the value
    and of the world it returns in. *)
Definition returns {A} (o : outcome A) (P : A → world → Prop) : Prop :=
  match o with Ret a w' => P a w' | _ => False end.

(** Partial correctness: [P] holds if the computation returns. *)
Definition on_return {A} (o : outcome A) (P : A → world → Prop) : Prop :=
  match o with Ret a w' => P a w' | _ => True end.

(** The code a pthread call returned; [malloc] and [free] return none. *)
Definition pthread_result (c : oscall) : option Z :=
  match c with
  | Malloc _ | Free _ => None
  | MutexattrInit _ r | MutexattrSettype _ _ r | MutexattrDestroy _ r
  | MutexInit _ _ r | MutexLock _ _ r | MutexTrylock _ _ r
  | MutexUnlock _ _ r | MutexDestroy _ r => Some r
  end.

(** Every pthread call that returned a nonzero code is followed at once by
    the assignment of that code to the caller's [errno], and that by a
    diagnostic carrying the code. *)
Fixpoint errno_discipline (t : tid) (evs : list event) : bool :=
  match evs with
  | [] => true
  | Call c :: rest =>
      match pthread_result c with
      | Some r =>
          if decide (r = 0) then errno_discipline t rest
          else
            match rest with
            | Assign t' e :: Print rep :: _ =>
                bool_decide (t' = t ∧ e = r ∧ rep_code rep = r)
                && errno_discipline t rest
            | _ => false
            end
      | None => errno_discipline t rest
      end
  | _ :: rest => errno_discipline t rest
  end.

(** The same, said of the positions in the list. *)
Definition errno_before_report (t : tid) (evs : list event) : Prop :=
  ∀ pre c r post,
    evs = pre ++ Call c :: post → pthread_result c = Some r → r ≠ 0 →
    ∃ rep post', post = Assign t r :: Print rep :: post' ∧ rep_code rep = r.

(** What a run of [createMutex] from [w] that returns [r] in [w'] did. *)
Definition createMutex_post (t : tid) (w : world) (r : ptr) (w' : world) : Prop :=
  ∃ evs, trace w' = trace w ++ evs ∧
    errno_discipline t evs = true ∧
    match r with
    | Some m =>
        heap w !! m = None ∧
        heap w' = <[m := Mutex PTHREAD_MUTEX_ERRORCHECK None]> (heap w)
    | None =>
        reports evs ≠ [] ∧
        (heap w' = heap w ∨
         ∃ a c, c ≠ 0 ∧ heap w !! a = None ∧
           heap w' = <[a := Attr PTHREAD_MUTEX_ERRORCHECK]> (heap w) ∧
           Call (MutexattrDestroy a c) ∈ evs)
    end.

(** What a run of [lockMutex], [unlockMutex] or [destroyMutex] that returns
    [r] did: [0] or [1] comes back, and [1] with a diagnostic. *)
Definition status_post (t : tid) (w : world) (r : Z) (w' : world) : Prop :=
  ∃ evs, trace w' = trace w ++ evs ∧
    errno_discipline t evs = true ∧
    (r = 0 ∨ r = 1 ∧ reports evs ≠ []).

(** The calls of a successful [destroyMutex], in order. *)
Definition teardown (t : tid) (m : addr) : list event :=
  [Call (MutexTrylock t m 0); Assign t 0;
   Call (MutexUnlock t m 0); Assign t 0;
   Call (MutexDestroy m 0); Assign t 0;
   Call (Free m)].

(** Whether a run freed memory or tore a mutex down. *)
Definition releases (e : event) : bool :=
  match e with
  | Call (Free _) => true
  | Call (MutexDestroy _ r) => bool_decide (r = 0)
  | _ => false
  end.

(** What a run of [destroyMutex] that returns [r] did: either the whole
    teardown, ending in the one [free], or a diagnostic and nothing
    released. *)
Definition destroyMutex_post (t : tid) (p : ptr) (w : world) (r : Z) (w' : world)
  : Prop :=
  ∃ evs, trace w' = trace w ++ evs ∧
    errno_discipline t evs = true ∧
    ((r = 0 ∧ ∃ m, p = Some m ∧ evs = teardown t m ∧
        heap w' = delete m (heap w)) ∨
     (r = 1 ∧ reports evs ≠ [] ∧ heap w' = heap w ∧
        existsb releases evs = false ∧
        match p with
        | Some m => ∃ ty o, heap w !! m = Some (Mutex ty o)
        | None => True
        end)).

(** ** The returning runs of the handle operations *)

(** Every way [lockMutex] returns: the handle is null; the mutex was free
    and is now the caller's; or the caller held it already. *)
Inductive lock_run (t : tid) (w : world) : ptr → Z → world → Prop :=
  | lock_null :
      lock_run t w NULL 1
        (World (heap w) (errno_tls w) (faults w)
           (trace w ++ [Print (Report 0 __FILE__ "lockMutex"
                                 (Some "Could not lock mutex as it is null."))]))
  | lock_acquired m ty :
      heap w !! m = Some (Mutex ty None) →
      lock_run t w (Some m) 0
        (World (<[m := Mutex ty (Some t)]> (heap w)) (<[t := 0]> (errno_tls w))
           (faults w) (trace w ++ [Call (MutexLock t m 0); Assign t 0]))
  | lock_relock m :
      heap w !! m = Some (Mutex PTHREAD_MUTEX_ERRORCHECK (Some t)) →
      lock_run t w (Some m) 1
        (World (heap w) (<[t := EDEADLK]> (errno_tls w)) (faults w)
           (trace w ++ [Call (MutexLock t m EDEADLK); Assign t EDEADLK;
              Print (Report EDEADLK __FILE__ "lockMutex"
                       (Some "Could not lock mutex."))])).

(** Every way [unlockMutex] returns: the handle is null; the caller held the
    mutex and it is now free; or the caller did not hold it. *)
Inductive unlock_run (t : tid) (w : world) : ptr → Z → world → Prop :=
  | unlock_null :
      unlock_run t w NULL 1
        (World (heap w) (errno_tls w) (faults w)
           (trace w ++ [Print (Report 0 __FILE__ "unlockMutex"
                                 (Some "Could not unlock mutex as it is null."))]))
  | unlock_released m ty :
      heap w !! m = Some (Mutex ty (Some t)) →
      unlock_run t w (Some m) 0
        (World (<[m := Mutex ty None]> (heap w)) (<[t := 0]> (errno_tls w))
           (faults w) (trace w ++ [Call (MutexUnlock t m 0); Assign t 0]))
  | unlock_refused m o :
      heap w !! m = Some (Mutex PTHREAD_MUTEX_ERRORCHECK o) → o ≠ Some t →
      unlock_run t w (Some m) 1
        (World (heap w) (<[t := EPERM]> (errno_tls w)) (faults w)
           (trace w ++ [Call (MutexUnlock t m EPERM); Assign t EPERM;
              Print (Report EPERM __FILE__ "unlockMutex"
                       (Some "Could not unlock mutex."))])).

(** Every way [destroyMutex] returns: the handle is null; the mutex is
    held; the teardown goes through; or [pthread_mutex_destroy] fails. *)
Inductive destroy_run (t : tid) (w : world) : ptr → Z → world → Prop :=
  | destroy_null :
      destroy_run t w NULL 1
        (World (heap w) (errno_tls w) (faults w)
           (trace w ++ [Print (Report 0 __FILE__ "destroyMutex"
                                 (Some "Could not destroy mutex as it is null."))]))
  | destroy_refused m ty o :
      heap w !! m = Some (Mutex ty (Some o)) →
      destroy_run t w (Some m) 1
        (World (heap w) (<[t := EBUSY]> (errno_tls w)) (faults w)
           (trace w ++ [Call (MutexTrylock t m EBUSY); Assign t EBUSY;
              Print (Report EBUSY __FILE__ "destroyMutex"
                       (Some "Could not destroy mutex as it is locked."))]))
  | destroy_done m ty :
      heap w !! m = Some (Mutex ty None) → peek_fault w = 0 →
      destroy_run t w (Some m) 0
        (World (delete m (heap w)) (<[t := 0]> (errno_tls w))
           (tail (faults w)) (trace w ++ teardown t m))
  | destroy_failed m ty :
      heap w !! m = Some (Mutex ty None) → peek_fault w ≠ 0 →
      destroy_run t w (Some m) 1
        (World (heap w) (<[t := peek_fault w]> (errno_tls w))
           (tail (faults w))
           (trace w ++ [Call (MutexTrylock t m 0); Assign t 0;
              Call (MutexUnlock t m 0); Assign t 0;
              Call (MutexDestroy m (peek_fault w)); Assign t (peek_fault w);
              Print (Report (peek_fault w) __FILE__ "destroyMutex"
                       (Some "Could not destroy mutex."))])).

(** What the runs of [createMutexAttribute] and [createMutex] do besides
    what [createMutex_post] says: to [errno], and to the log on success. *)
Definition construct_quiet (t : tid) (w : world) (r : ptr) (w' : world) : Prop :=
  (∀ t', t' ≠ t → errno_tls w' !! t' = errno_tls w !! t') ∧
  (r ≠ NULL → errno_of t w' = 0 ∧ log w' = log w).

(** What a run of [createMutexAttribute] that returns [r] did. *)
Definition createMutexAttribute_post (t : tid) (w : world) (r : ptr) (w' : world)
  : Prop :=
  match r with
  | Some a =>
      heap w !! a = None ∧
      heap w' = <[a := Attr PTHREAD_MUTEX_ERRORCHECK]> (heap w) ∧
      log w' = log w
  | None =>
      heap w' = heap w ∧
      ∃ rep, log w' = log w ++ [rep] ∧
        rep_function rep = "createMutexAttribute" ∧
        rep_code rep = errno_of t w' ∧ rep_code rep ≠ 0
  end.

(** Every mutex in the heap is an error-checking one. *)
Definition all_errorcheck (w : world) : Prop :=
  ∀ a ty o, heap w !! a = Some (Mutex ty o) → ty = PTHREAD_MUTEX_ERRORCHECK.

(** ** Sample worlds *)

(** Nothing allocated, no fault planned. *)
Definition w_empty : world := World ∅ ∅ [] [].

(** One handle, at address 2, unlocked; then held by thread 7. *)
Definition w_unlocked : world :=
  World {[ 2%positive := Mutex PTHREAD_MUTEX_ERRORCHECK None ]} ∅ [] [].
Definition w_locked : world :=
  World {[ 2%positive := Mutex PTHREAD_MUTEX_ERRORCHECK (Some 7%nat) ]} ∅ [] [].

(** The same unlocked handle, where the next fallible call fails. *)
Definition w_unlocked_faulty : world :=
  World {[ 2%positive := Mutex PTHREAD_MUTEX_ERRORCHECK None ]} ∅ [EBUSY] [].

(** The allocation of the handle fails, and so does the teardown of the
    attribute that follows. *)
Definition w_leak : world := World ∅ ∅ [0; 0; 0; ENOMEM; EINVAL] [].

(** One initialized attribute, at address 1; and the same where the next
    fallible call fails. *)
Definition w_attr : world :=
  World {[ 1%positive := Attr PTHREAD_MUTEX_ERRORCHECK ]} ∅ [] [].
Definition w_attr_faulty : world :=
  World {[ 1%positive := Attr PTHREAD_MUTEX_ERRORCHECK ]} ∅ [EINVAL] [].


(** Two handles: 2, unlocked, and 3, held by thread 7. *)
Definition w_two : world :=
  World {[ 2%positive := Mutex PTHREAD_MUTEX_ERRORCHECK None;
           3%positive := Mutex PTHREAD_MUTEX_ERRORCHECK (Some 7%nat) ]}
        {[ 9%nat := EBUSY ]} [] [].

(** Plans under which the handle cannot be allocated, or cannot be
    initialized, while the teardown of the attribute goes through. *)
Definition w_no_memory : world := World ∅ ∅ [0; 0; 0; ENOMEM; 0] [].
Definition w_no_init : world := World ∅ ∅ [0; 0; 0; 0; EPERM; 0] [].

(** Plans under which the attribute cannot be allocated, initialized or
    given its type. *)
Definition w_no_attr_memory : world := World ∅ ∅ [ENOMEM] [].
Definition w_no_attr_init : world := World ∅ ∅ [0; ENOMEM] [].
Definition w_no_settype : world := World ∅ ∅ [0; 0; EINVAL] [].

(** ** Symbolic execution *)

Ltac unfold_ops :=
  unfold destroyMutex, createMutex, unlockMutex, lockMutex,
    destroyMutexAttribute, createMutexAttribute,
    pthread_mutex_destroy, pthread_mutex_unlock, pthread_mutex_trylock,
    pthread_mutex_lock, pthread_mutex_init, pthread_mutexattr_destroy,
    pthread_mutexattr_settype, pthread_mutexattr_init, malloc, free,
    printError, called, emit, set_errno, get_errno, next_fault, get_heap,
    put_heap, undefined, blocked, mbind, mret, M_bind, M_ret in *.

Ltac red_world :=
  cbn beta iota delta [heap errno_tls faults trace attr_type] in *.

Lemma state_of_UNLOCKED w p :
  state_of w p = UNLOCKED ↔
  ∃ m, p = Some m ∧ heap w !! m = Some (Mutex PTHREAD_MUTEX_ERRORCHECK None).
Proof.
  unfold state_of. split.
  - destruct p as [m|]; [|done].
    destruct (heap w !! m) as [[|?|[] [?|]]|] eqn:Hm; try done; eauto.
  - intros (m & -> & ->). done.
Qed.

Lemma state_of_LOCKED w p o :
  state_of w p = LOCKED o ↔
  ∃ m, p = Some m ∧ heap w !! m = Some (Mutex PTHREAD_MUTEX_ERRORCHECK (Some o)).
Proof.
  unfold state_of. split.
  - destruct p as [m|]; [|done].
    destruct (heap w !! m) as [[|?|[] [?|]]|] eqn:Hm; try done.
    intros [= ->]; eauto.
  - intros (m & -> & ->). done.
Qed.

Lemma errno_of_set t e h es f tr :
  errno_of t (World h (<[t := e]> es) f tr) = e.
Proof. unfold errno_of. cbn. by rewrite lookup_insert_eq. Qed.

(** Runs the straight-line part of a computation: reads of the heap that a
    hypothesis or an earlier write settles, reads of [errno] after an
    assignment, and tests whose outcome is known. *)
Ltac exec :=
  unfold_ops; red_world;
  repeat first
    [ progress red_world
    | rewrite errno_of_set
    | match goal with
      | H : ?h !! ?a = _ |- context [?h !! ?a] => rewrite H
      end
    | rewrite lookup_insert_eq
    | rewrite lookup_insert_ne by congruence
    | rewrite lookup_delete_eq
    | rewrite lookup_delete_ne by congruence
    | rewrite decide_True by (done || congruence)
    | rewrite decide_False by (done || congruence) ].

Lemma fresh_heap (h : gmap addr block) : h !! fresh (dom h) = None.
Proof. apply not_elem_of_dom, is_fresh. Qed.

(** Names the address the next [malloc] hands out and records that it is
    not in use. *)
Ltac name_fresh :=
  match goal with
  | |- context [fresh (dom ?h)] =>
      let a := fresh "a" in
      let Ha := fresh "Ha" in
      pose proof (fresh_heap h) as Ha;
      set (a := fresh (dom h)) in *; clearbody a;
      rewrite ?lookup_insert_None in Ha; destruct_and?
  end.

(** Splits on whether the next planned fault is one. *)
Ltac split_fault :=
  match goal with
  | |- context [decide (?c = 0)] =>
      let x := fresh "c" in
      set (x := c) in *; clearbody x; destruct (decide (x = 0)) as [->|?]
  end.

(** Follows every path of a computation to its end. *)
Ltac explore :=
  repeat (exec; rewrite ?insert_insert_eq; try name_fresh; try split_fault).

(** Runs [createMutex] along the path a given plan of faults selects. *)
Ltac follow_plan Hf :=
  repeat (exec; unfold peek_fault; red_world;
          rewrite ?insert_insert_eq, ?Hf;
          cbn [head tail default from_option id];
          try name_fresh).

(** Equality of two heaps built from one heap by writes and frees. *)
Ltac heap_eq :=
  let i := fresh "i" in
  apply map_eq; intros i;
  repeat match goal with
         | |- context [<[?a := _]> _] =>
             lazymatch goal with
             | H : i ≠ a |- _ => fail
             | _ => destruct (decide (i = a)) as [->|?]
             end
         | |- context [delete ?a _] =>
             lazymatch goal with
             | H : i ≠ a |- _ => fail
             | _ => destruct (decide (i = a)) as [->|?]
             end
         end;
  simplify_map_eq; done.

(** Puts the trace of a finished run in the shape [old ++ [e1; ...; en]]. *)
Ltac norm_trace := rewrite <- ?app_assoc; cbn [app].

(** ** Lock and unlock *)

Lemma lockMutex_unlocked t m ty w :
  heap w !! m = Some (Mutex ty None) →
  lockMutex t (Some m) w =
    Ret 0 (World (<[m := Mutex ty (Some t)]> (heap w)) (<[t := 0]> (errno_tls w))
             (faults w) (trace w ++ [Call (MutexLock t m 0); Assign t 0])).
Proof. intros Hm. exec. by norm_trace. Qed.

Lemma lockMutex_relock t m w :
  heap w !! m = Some (Mutex PTHREAD_MUTEX_ERRORCHECK (Some t)) →
  lockMutex t (Some m) w =
    Ret 1 (World (heap w) (<[t := EDEADLK]> (errno_tls w)) (faults w)
             (trace w ++ [Call (MutexLock t m EDEADLK); Assign t EDEADLK;
                Print (Report EDEADLK __FILE__ "lockMutex"
                         (Some "Could not lock mutex."))])).
Proof. intros Hm. exec. by norm_trace. Qed.

(** What the error-checking type buys: on a normal mutex the same call
    never returns. *)
Lemma lockMutex_relock_normal t m w :
  heap w !! m = Some (Mutex PTHREAD_MUTEX_NORMAL (Some t)) →
  lockMutex t (Some m) w = Blocked.
Proof. intros Hm. by exec. Qed.

Lemma lockMutex_contended t o m ty w :
  heap w !! m = Some (Mutex ty (Some o)) → o ≠ t →
  lockMutex t (Some m) w = Blocked.
Proof. intros Hm Ho. by exec. Qed.

Lemma unlockMutex_owner t m ty w :
  heap w !! m = Some (Mutex ty (Some t)) →
  unlockMutex t (Some m) w =
    Ret 0 (World (<[m := Mutex ty None]> (heap w)) (<[t := 0]> (errno_tls w))
             (faults w) (trace w ++ [Call (MutexUnlock t m 0); Assign t 0])).
Proof. intros Hm. exec. by norm_trace. Qed.

Lemma unlockMutex_not_owner t m o w :
  heap w !! m = Some (Mutex PTHREAD_MUTEX_ERRORCHECK o) → o ≠ Some t →
  unlockMutex t (Some m) w =
    Ret 1 (World (heap w) (<[t := EPERM]> (errno_tls w)) (faults w)
             (trace w ++ [Call (MutexUnlock t m EPERM); Assign t EPERM;
                Print (Report EPERM __FILE__ "unlockMutex"
                         (Some "Could not unlock mutex."))])).
Proof. intros Hm Ho. exec. by norm_trace. Qed.

Lemma unlockMutex_not_owner_normal t m o w :
  heap w !! m = Some (Mutex PTHREAD_MUTEX_NORMAL o) → o ≠ Some t →
  unlockMutex t (Some m) w = Undefined.
Proof. intros Hm Ho. by exec. Qed.

(** ** Destruct *)

Lemma destroyMutex_locked t m ty o w :
  heap w !! m = Some (Mutex ty (Some o)) →
  destroyMutex t (Some m) w =
    Ret 1 (World (heap w) (<[t := EBUSY]> (errno_tls w)) (faults w)
             (trace w ++ [Call (MutexTrylock t m EBUSY); Assign t EBUSY;
                Print (Report EBUSY __FILE__ "destroyMutex"
                         (Some "Could not destroy mutex as it is locked."))])).
Proof. intros Hm. exec. by norm_trace. Qed.

Lemma destroyMutex_unlocked_ok t m ty w :
  heap w !! m = Some (Mutex ty None) → peek_fault w = 0 →
  destroyMutex t (Some m) w =
    Ret 0 (World (delete m (heap w)) (<[t := 0]> (errno_tls w))
             (tail (faults w))
             (trace w ++ [Call (MutexTrylock t m 0); Assign t 0;
                Call (MutexUnlock t m 0); Assign t 0;
                Call (MutexDestroy m 0); Assign t 0; Call (Free m)])).
Proof.
  intros Hm Hc. exec. unfold peek_fault in *. red_world. rewrite Hc. exec.
  norm_trace. by rewrite !insert_insert_eq, !delete_insert_eq.
Qed.

Lemma destroyMutex_unlocked_fail t m ty w :
  heap w !! m = Some (Mutex ty None) → peek_fault w ≠ 0 →
  destroyMutex t (Some m) w =
    Ret 1 (World (heap w) (<[t := peek_fault w]> (errno_tls w))
             (tail (faults w))
             (trace w ++ [Call (MutexTrylock t m 0); Assign t 0;
                Call (MutexUnlock t m 0); Assign t 0;
                Call (MutexDestroy m (peek_fault w)); Assign t (peek_fault w);
                Print (Report (peek_fault w) __FILE__ "destroyMutex"
                         (Some "Could not destroy mutex."))])).
Proof.
  intros Hm Hc. exec. unfold peek_fault in *. red_world. exec.
  norm_trace. by rewrite !insert_insert_eq, insert_id.
Qed.

(** ** Construct *)

Lemma createMutex_returns t w :
  returns (createMutex t w) (createMutex_post t w).
Proof.
  unfold returns. explore.
  all: norm_trace.
  all: eexists; split; [reflexivity|].
  all: split; [cbn; repeat case_decide; try done|].
  all: red_world.
  all: try (split; [done | heap_eq]).
  all: split; [done|].
  all: try (left; heap_eq).
  all: right;
    match goal with
    | H : ?c ≠ 0 |- context [Call (MutexattrDestroy ?a ?c)] => exists a, c
    end.
  all: split_and!; [done | done | heap_eq | set_solver].
Qed.

(** ** Every run of the three handle operations *)

(** Checks [errno_discipline] on an explicit list of events. *)
Ltac discipline :=
  cbn [errno_discipline pthread_result];
  unfold EPERM, ENOMEM, EBUSY, EINVAL, EDEADLK in *;
  repeat first
    [ done
    | rewrite bool_decide_eq_true_2 by done
    | case_decide ].

(** Settles the block a handle points to, the owner of the mutex there and
    the planned fault, and runs each case. *)
Ltac explore_handle p w :=
  let m := fresh "m" in
  let Hm := fresh "Hm" in
  destruct p as [m|];
  [ destruct (heap w !! m) as [[| ? |[] [?|]]|] eqn:Hm |];
  explore; repeat (case_decide; simplify_eq; explore);
  norm_trace.

Lemma lockMutex_run t p w : on_return (lockMutex t p w) (status_post t w).
Proof.
  unfold on_return, status_post. explore_handle p w; try done.
  all: eexists; split; [reflexivity|]; split; [discipline|]; auto.
Qed.

Lemma unlockMutex_run t p w : on_return (unlockMutex t p w) (status_post t w).
Proof.
  unfold on_return, status_post. explore_handle p w; try done.
  all: eexists; split; [reflexivity|]; split; [discipline|]; auto.
Qed.

Lemma destroyMutex_run t p w :
  on_return (destroyMutex t p w) (destroyMutex_post t p w).
Proof.
  unfold on_return, destroyMutex_post. explore_handle p w; try done.
  all: eexists; split; [reflexivity|].
  all: split; [discipline|].
  all: first
    [ left; split; [done|]; eexists; split_and!; [done | done | heap_eq]
    | right; split_and!;
      [ done | done | done || heap_eq
      | cbn; rewrite ?bool_decide_eq_false_2 by done; done
      | done || eauto ] ].
Qed.

(** ** Null handles *)

Lemma lockMutex_NULL t w :
  lockMutex t NULL w =
    Ret 1 (World (heap w) (errno_tls w) (faults w)
             (trace w ++ [Print (Report 0 __FILE__ "lockMutex"
                                   (Some "Could not lock mutex as it is null."))])).
Proof. by exec. Qed.

Lemma unlockMutex_NULL t w :
  unlockMutex t NULL w =
    Ret 1 (World (heap w) (errno_tls w) (faults w)
             (trace w ++ [Print (Report 0 __FILE__ "unlockMutex"
                                   (Some "Could not unlock mutex as it is null."))])).
Proof. by exec. Qed.

Lemma destroyMutex_NULL t w :
  destroyMutex t NULL w =
    Ret 1 (World (heap w) (errno_tls w) (faults w)
             (trace w ++ [Print (Report 0 __FILE__ "destroyMutex"
                                   (Some "Could not destroy mutex as it is null."))])).
Proof. by exec. Qed.

(** ** From runs to logs and states *)

Lemma log_app w w' evs :
  trace w' = trace w ++ evs → log w' = log w ++ reports evs.
Proof. unfold log, reports. intros ->. apply omap_app. Qed.

Lemma log_World h es f evs w :
  log (World h es f (trace w ++ evs)) = log w ++ reports evs.
Proof. by apply log_app. Qed.

Lemma reports_cons evs : reports evs ≠ [] → ∃ rep reps, reports evs = rep :: reps.
Proof. destruct (reports evs) as [|rep reps]; [done | eauto]. Qed.

Lemma on_return_inv {A} (o : outcome A) P a w' :
  on_return o P → o = Ret a w' → P a w'.
Proof. by intros H ->. Qed.

Lemma returns_inv {A} (o : outcome A) P :
  returns o P → ∃ a w', o = Ret a w' ∧ P a w'.
Proof. destruct o; [eauto | done | done]. Qed.

Lemma state_of_insert h es f tr m ty o :
  state_of (World (<[m := Mutex ty o]> h) es f tr) (Some m) =
    match ty, o with
    | PTHREAD_MUTEX_ERRORCHECK, None => UNLOCKED
    | PTHREAD_MUTEX_ERRORCHECK, Some t => LOCKED t
    | _, _ => UNINITIALIZED
    end.
Proof. unfold state_of. cbn [heap]. rewrite lookup_insert_eq. by destruct ty, o. Qed.

Lemma state_of_delete h es f tr m :
  state_of (World (delete m h) es f tr) (Some m) = UNINITIALIZED.
Proof. unfold state_of. cbn [heap]. by rewrite lookup_delete_eq. Qed.

(** With no fault planned, [createMutex] hands out a handle. *)
Lemma createMutex_no_fault t w :
  faults w = [] → ∃ m w', createMutex t w = Ret (Some m) w'.
Proof.
  intros Hf.
  repeat (exec; unfold peek_fault; red_world;
          rewrite ?insert_insert_eq, ?Hf; cbn [head tail default];
          try name_fresh).
  eauto.
Qed.

(** On an initialized handle no operation runs into undefined behaviour:
    [unlockMutex] and [destroyMutex] return, and [lockMutex] returns or
    waits. *)
Lemma initialized_handle_defined t p w :
  state_of w p ≠ UNINITIALIZED →
  lockMutex t p w ≠ Undefined ∧
  (∃ r w', unlockMutex t p w = Ret r w') ∧
  (∃ r w', destroyMutex t p w = Ret r w').
Proof.
  intros Hinit.
  assert (∃ m o, p = Some m ∧
            heap w !! m = Some (Mutex PTHREAD_MUTEX_ERRORCHECK o))
    as (m & o & -> & Hm).
  { unfold state_of in Hinit. destruct p as [m|]; [|done].
    destruct (heap w !! m) as [[|?|[] o]|] eqn:Hm; try done. eauto. }
  split_and!.
  - destruct o as [o|]; [destruct (decide (o = t)) as [->|]|].
    + by rewrite (lockMutex_relock _ _ _ Hm).
    + by erewrite lockMutex_contended.
    + by rewrite (lockMutex_unlocked _ _ _ _ Hm).
  - destruct (decide (o = Some t)) as [->|].
    + rewrite (unlockMutex_owner _ _ _ _ Hm). eauto.
    + erewrite unlockMutex_not_owner by done. eauto.
  - destruct o as [o|]; [|destruct (decide (peek_fault w = 0))].
    + rewrite (destroyMutex_locked _ _ _ _ _ Hm). eauto.
    + erewrite destroyMutex_unlocked_ok by done. eauto.
    + erewrite destroyMutex_unlocked_fail by done. eauto.
Qed.

(** ** The discipline, position by position *)

Lemma errno_discipline_sound t evs :
  errno_discipline t evs = true → errno_before_report t evs.
Proof.
  unfold errno_before_report.
  induction evs as [|e evs IH]; intros Hd pre c r post Heq Hres Hr.
  { by destruct pre. }
  destruct pre as [|e' pre]; simplify_eq/=.
  - rewrite Hres in Hd. rewrite decide_False in Hd by done.
    destruct post as [|[| t' e' |] [|[| | rep] post']]; try done.
    apply andb_prop in Hd as [Hd _]. apply bool_decide_eq_true_1 in Hd.
    destruct Hd as (-> & -> & ?). eauto.
  - assert (errno_discipline t (pre ++ Call c :: post) = true) as Hd';
      [|by eapply (IH Hd' pre)].
    destruct e' as [c'| |]; [|done..].
    destruct (pthread_result c') as [r'|]; [|done].
    case_decide; [done|].
    destruct (pre ++ Call c :: post) as [|[| |] [|[| |] ?]]; try done.
    all: by apply andb_prop in Hd as [_ Hd].
Qed.

Lemma no_release evs :
  existsb releases evs = false →
  ∀ a, (Call (Free a) ∉ evs) ∧ (Call (MutexDestroy a 0) ∉ evs).
Proof.
  induction evs as [|e evs IH]; cbn [existsb]; intros Hex a.
  { split; apply not_elem_of_nil. }
  apply orb_false_elim in Hex as [He Hex].
  destruct (IH Hex a). split; apply not_elem_of_cons; (split; [|done]);
    intros <-; done.
Qed.

(** * The claims *)

(** C1. Per handle, the operations follow the state machine of the
    specification.  A handle that [createMutex] returns was uninitialized
    before the call and is UNLOCKED after it; [lockMutex] takes an UNLOCKED
    handle to LOCKED (by the caller); [unlockMutex] by the owner takes it
    back to UNLOCKED; [destroyMutex] takes an UNLOCKED handle, when the
    operating system tears the lock down without error, to UNINITIALIZED;
    and [destroyMutex] on a LOCKED handle, whoever holds it, returns failure
    and leaves it LOCKED by the same owner. *)
Theorem C1_state_machine (t : tid) (w : world) :
  (∀ m w', createMutex t w = Ret (Some m) w' →
     state_of w (Some m) = UNINITIALIZED ∧ state_of w' (Some m) = UNLOCKED) ∧
  (∀ p, state_of w p = UNLOCKED →
     ∃ w', lockMutex t p w = Ret 0 w' ∧ state_of w' p = LOCKED t) ∧
  (∀ p, state_of w p = LOCKED t →
     ∃ w', unlockMutex t p w = Ret 0 w' ∧ state_of w' p = UNLOCKED) ∧
  (∀ p, state_of w p = UNLOCKED → peek_fault w = 0 →
     ∃ w', destroyMutex t p w = Ret 0 w' ∧ state_of w' p = UNINITIALIZED) ∧
  (∀ p o, state_of w p = LOCKED o →
     ∃ w', destroyMutex t p w = Ret 1 w' ∧ state_of w' p = LOCKED o).
Proof.
  split_and!.
  - intros m w' Hrun.
    pose proof (createMutex_returns t w) as Hpost.
    rewrite Hrun in Hpost. destruct Hpost as (evs & _ & _ & Hfree & Hheap).
    unfold state_of. rewrite Hfree, Hheap, lookup_insert_eq. done.
  - intros p (m & -> & Hm)%state_of_UNLOCKED.
    rewrite (lockMutex_unlocked _ _ _ _ Hm). eexists. split; [done|].
    apply state_of_insert.
  - intros p (m & -> & Hm)%state_of_LOCKED.
    rewrite (unlockMutex_owner _ _ _ _ Hm). eexists. split; [done|].
    apply state_of_insert.
  - intros p (m & -> & Hm)%state_of_UNLOCKED Hc.
    rewrite (destroyMutex_unlocked_ok _ _ _ _ Hm Hc). eexists. split; [done|].
    apply state_of_delete.
  - intros p o (m & -> & Hm)%state_of_LOCKED.
    rewrite (destroyMutex_locked _ _ _ _ _ Hm). eexists. split; [done|].
    apply state_of_LOCKED. eauto.
Qed.

Lemma C1_state_machine_witness :
  (∃ w', createMutex 7%nat w_empty = Ret (Some 2%positive) w' ∧
     state_of w_empty (Some 2%positive) = UNINITIALIZED ∧
     state_of w' (Some 2%positive) = UNLOCKED) ∧
  (∃ w', lockMutex 7%nat (Some 2%positive) w_unlocked = Ret 0 w' ∧
     state_of w' (Some 2%positive) = LOCKED 7%nat) ∧
  (∃ w', unlockMutex 7%nat (Some 2%positive) w_locked = Ret 0 w' ∧
     state_of w' (Some 2%positive) = UNLOCKED) ∧
  (∃ w', destroyMutex 7%nat (Some 2%positive) w_unlocked = Ret 0 w' ∧
     state_of w' (Some 2%positive) = UNINITIALIZED) ∧
  (∃ w', destroyMutex 8%nat (Some 2%positive) w_locked = Ret 1 w' ∧
     state_of w' (Some 2%positive) = LOCKED 7%nat).
Proof.
  split_and!.
  - eexists. split; [vm_compute; reflexivity|].
    apply (proj1 (C1_state_machine 7%nat w_empty)).
    vm_compute; reflexivity.
  - apply (proj1 (proj2 (C1_state_machine 7%nat w_unlocked))).
    vm_compute; reflexivity.
  - apply (proj1 (proj2 (proj2 (C1_state_machine 7%nat w_locked)))).
    vm_compute; reflexivity.
  - apply (proj1 (proj2 (proj2 (proj2 (C1_state_machine 7%nat w_unlocked))))).
    + vm_compute; reflexivity.
    + vm_compute; reflexivity.
  - apply (proj2 (proj2 (proj2 (proj2 (C1_state_machine 8%nat w_locked))))).
    vm_compute; reflexivity.
Defined.

(** What [createMutex] leaves in the heap when it fails: nothing, unless the
    teardown of the attribute failed, and then the attribute. *)
Lemma createMutex_failure_heap t w w' :
  createMutex t w = Ret NULL w' →
  heap w' = heap w ∨
  ∃ a c evs, c ≠ 0 ∧ trace w' = trace w ++ evs ∧
    Call (MutexattrDestroy a c) ∈ evs ∧
    heap w !! a = None ∧
    heap w' = <[a := Attr PTHREAD_MUTEX_ERRORCHECK]> (heap w).
Proof.
  intros Hrun. pose proof (createMutex_returns t w) as Hpost.
  rewrite Hrun in Hpost.
  destruct Hpost as (evs & Htr & _ & _ & [?|(a & c & ? & ? & ? & ?)]);
    [by left | right; by exists a, c, evs].
Qed.

Lemma createMutex_failure_clean t w w' :
  createMutex t w = Ret NULL w' →
  (∀ evs a c, trace w' = trace w ++ evs →
     Call (MutexattrDestroy a c) ∈ evs → c = 0) →
  heap w' = heap w.
Proof.
  intros Hrun Hclean.
  destruct (createMutex_failure_heap _ _ _ Hrun)
    as [?|(a & c & evs & Hc & Htr & Hin & _)]; [done|].
  by destruct Hc, (Hclean evs a c).
Qed.

(** C2. Every internal failure of [createMutex] that the specification
    lists makes it return [NULL] with all it had acquired released and the
    failure reported: the allocation of the attribute fails; its
    initialization fails; the setting of its type fails; the allocation of
    the handle fails; [pthread_mutex_init] fails (in the last two the
    attribute is torn down by [destroyMutexAttribute], whose
    [pthread_mutexattr_destroy] succeeds).  In each the heap on return is
    the heap at the call: the attribute and the handle memory are freed.
    More generally, no run that returns [NULL] and whose
    [pthread_mutexattr_destroy], if called, returned 0 leaves anything
    allocated.  And a handle that is returned is complete: the only change
    to the heap is the initialized, unlocked, error-checking mutex at a
    block that was free. *)
Theorem C2_construct_failure_releases_everything
    (t : tid) (w : world) (c : Z) (fs : list Z) :
  c ≠ 0 →
  let released :=
    ∃ w', createMutex t w = Ret NULL w' ∧ heap w' = heap w ∧
      ∃ rep reps, log w' = log w ++ rep :: reps in
  (faults w = c :: fs → released) ∧
  (faults w = 0 :: c :: fs → released) ∧
  (faults w = 0 :: 0 :: c :: fs → released) ∧
  (faults w = 0 :: 0 :: 0 :: c :: fs → default 0 (head fs) = 0 → released) ∧
  (faults w = 0 :: 0 :: 0 :: 0 :: c :: fs → default 0 (head fs) = 0 →
   released) ∧
  (∀ w', createMutex t w = Ret NULL w' →
     (∀ evs a c', trace w' = trace w ++ evs →
        Call (MutexattrDestroy a c') ∈ evs → c' = 0) →
     heap w' = heap w) ∧
  (∀ m w', createMutex t w = Ret (Some m) w' →
     heap w !! m = None ∧
     heap w' = <[m := Mutex PTHREAD_MUTEX_ERRORCHECK None]> (heap w)).
Proof.
  intros Hc released. subst released. split_and!.
  - intros Hf. follow_plan Hf. eexists. split; [done|]. norm_trace.
    rewrite log_World. cbn [heap reports omap]. eauto.
  - intros Hf. follow_plan Hf. eexists. split; [done|]. norm_trace.
    rewrite log_World. cbn [heap reports omap]. split; [heap_eq | eauto].
  - intros Hf. follow_plan Hf. eexists. split; [done|]. norm_trace.
    rewrite log_World. cbn [heap reports omap]. split; [heap_eq | eauto].
  - intros Hf Hd. destruct fs as [|d fs]; simplify_eq/=; follow_plan Hf.
    all: eexists; (split; [done|]); norm_trace.
    all: rewrite log_World; cbn [heap reports omap].
    all: split; [heap_eq | eauto].
  - intros Hf Hd. destruct fs as [|d fs]; simplify_eq/=; follow_plan Hf.
    all: eexists; (split; [done|]); norm_trace.
    all: rewrite log_World; cbn [heap reports omap].
    all: split; [heap_eq | eauto].
  - intros w'. apply createMutex_failure_clean.
  - intros m w' Hrun.
    pose proof (createMutex_returns t w) as Hpost. rewrite Hrun in Hpost.
    by destruct Hpost as (evs & _ & _ & Hfree & Hheap).
Qed.

Lemma C2_construct_failure_releases_everything_witness :
  (∃ w', createMutex 7%nat w_no_attr_memory = Ret NULL w' ∧
     heap w' = heap w_no_attr_memory ∧
     ∃ rep reps, log w' = log w_no_attr_memory ++ rep :: reps) ∧
  (∃ w', createMutex 7%nat w_no_attr_init = Ret NULL w' ∧
     heap w' = heap w_no_attr_init ∧
     ∃ rep reps, log w' = log w_no_attr_init ++ rep :: reps) ∧
  (∃ w', createMutex 7%nat w_no_settype = Ret NULL w' ∧
     heap w' = heap w_no_settype ∧
     ∃ rep reps, log w' = log w_no_settype ++ rep :: reps) ∧
  (∃ w', createMutex 7%nat w_no_memory = Ret NULL w' ∧
     heap w' = heap w_no_memory ∧
     ∃ rep reps, log w' = log w_no_memory ++ rep :: reps) ∧
  (∃ w', createMutex 7%nat w_no_init = Ret NULL w' ∧
     heap w' = heap w_no_init ∧
     ∃ rep reps, log w' = log w_no_init ++ rep :: reps) ∧
  (∃ w', createMutex 7%nat w_empty = Ret (Some 2%positive) w' ∧
     heap w_empty !! 2%positive = None ∧
     heap w' = <[2%positive := Mutex PTHREAD_MUTEX_ERRORCHECK None]>
                 (heap w_empty)).
Proof.
  split_and!.
  - apply (proj1 (C2_construct_failure_releases_everything 7%nat
                    w_no_attr_memory ENOMEM [] ltac:(vm_compute; lia))).
    reflexivity.
  - apply (proj1 (proj2 (C2_construct_failure_releases_everything 7%nat
                    w_no_attr_init ENOMEM [] ltac:(vm_compute; lia)))).
    reflexivity.
  - apply (proj1 (proj2 (proj2 (C2_construct_failure_releases_everything 7%nat
                    w_no_settype EINVAL [] ltac:(vm_compute; lia))))).
    reflexivity.
  - apply (proj1 (proj2 (proj2 (proj2
             (C2_construct_failure_releases_everything 7%nat
                w_no_memory ENOMEM [0] ltac:(vm_compute; lia)))))).
    + reflexivity.
    + reflexivity.
  - apply (proj1 (proj2 (proj2 (proj2 (proj2
             (C2_construct_failure_releases_everything 7%nat
                w_no_init EPERM [0] ltac:(vm_compute; lia))))))).
    + reflexivity.
    + reflexivity.
  - eexists. split; [vm_compute; reflexivity|].
    apply (proj2 (proj2 (proj2 (proj2 (proj2 (proj2
             (C2_construct_failure_releases_everything 7%nat
                w_empty 1 [] ltac:(lia)))))))).
    vm_compute; reflexivity.
Defined.

(** C3. On a LOCKED handle, whoever holds it, [destroyMutex] makes one call,
    the non-blocking [pthread_mutex_trylock], which answers [EBUSY]; it
    reports "Could not destroy mutex as it is locked." and returns 1.  The
    heap is as it was, so the handle is still LOCKED by the same owner; the
    owner can still unlock it, and it can then be destroyed. *)
Theorem C3_destroy_locked_refused (t o : tid) (m : addr) (w : world) :
  state_of w (Some m) = LOCKED o →
  ∃ w', destroyMutex t (Some m) w = Ret 1 w' ∧
    trace w' = trace w ++
      [Call (MutexTrylock t m EBUSY); Assign t EBUSY;
       Print (Report EBUSY __FILE__ "destroyMutex"
                (Some "Could not destroy mutex as it is locked."))] ∧
    heap w' = heap w ∧
    state_of w' (Some m) = LOCKED o ∧
    ∃ w'', unlockMutex o (Some m) w' = Ret 0 w'' ∧
      state_of w'' (Some m) = UNLOCKED ∧
      (peek_fault w'' = 0 →
       ∃ w''', destroyMutex t (Some m) w'' = Ret 0 w''' ∧
         state_of w''' (Some m) = UNINITIALIZED).
Proof.
  intros (? & [= <-] & Hm)%state_of_LOCKED.
  rewrite (destroyMutex_locked _ _ _ _ _ Hm).
  eexists. split; [done|]. cbn [heap trace]. split_and!; [done | done | |].
  { apply state_of_LOCKED. eauto. }
  rewrite (unlockMutex_owner o m PTHREAD_MUTEX_ERRORCHECK) by done.
  eexists. split; [done|]. split; [apply state_of_insert|].
  intros Hc.
  erewrite destroyMutex_unlocked_ok; [|apply lookup_insert_eq|done].
  eexists. split; [done|]. apply state_of_delete.
Qed.

Lemma C3_destroy_locked_refused_witness :
  ∃ w', destroyMutex 8%nat (Some 2%positive) w_locked = Ret 1 w' ∧
    trace w' = trace w_locked ++
      [Call (MutexTrylock 8%nat 2%positive EBUSY); Assign 8%nat EBUSY;
       Print (Report EBUSY __FILE__ "destroyMutex"
                (Some "Could not destroy mutex as it is locked."))] ∧
    heap w' = heap w_locked ∧
    state_of w' (Some 2%positive) = LOCKED 7%nat ∧
    ∃ w'', unlockMutex 7%nat (Some 2%positive) w' = Ret 0 w'' ∧
      state_of w'' (Some 2%positive) = UNLOCKED ∧
      (peek_fault w'' = 0 →
       ∃ w''', destroyMutex 8%nat (Some 2%positive) w'' = Ret 0 w''' ∧
         state_of w''' (Some 2%positive) = UNINITIALIZED).
Proof.
  apply (C3_destroy_locked_refused 8%nat 7%nat 2%positive w_locked).
  vm_compute; reflexivity.
Defined.

(** C4. On an UNLOCKED handle, [destroyMutex] acquires the lock with the
    non-blocking probe, releases that acquisition, and only then calls
    [pthread_mutex_destroy].  When that call succeeds the handle's memory is
    freed and 0 is returned; when it fails with code [c], nothing is freed,
    "Could not destroy mutex." is reported with [c], and 1 is returned. *)
Theorem C4_destroy_unlocked (t : tid) (m : addr) (w : world) :
  state_of w (Some m) = UNLOCKED →
  (peek_fault w = 0 →
   ∃ w', destroyMutex t (Some m) w = Ret 0 w' ∧
     trace w' = trace w ++
       [Call (MutexTrylock t m 0); Assign t 0;
        Call (MutexUnlock t m 0); Assign t 0;
        Call (MutexDestroy m 0); Assign t 0;
        Call (Free m)] ∧
     heap w' = delete m (heap w)) ∧
  (peek_fault w ≠ 0 →
   ∃ w', destroyMutex t (Some m) w = Ret 1 w' ∧
     trace w' = trace w ++
       [Call (MutexTrylock t m 0); Assign t 0;
        Call (MutexUnlock t m 0); Assign t 0;
        Call (MutexDestroy m (peek_fault w)); Assign t (peek_fault w);
        Print (Report (peek_fault w) __FILE__ "destroyMutex"
                 (Some "Could not destroy mutex."))] ∧
     heap w' = heap w).
Proof.
  intros (? & [= <-] & Hm)%state_of_UNLOCKED. split; intros Hc.
  - rewrite (destroyMutex_unlocked_ok _ _ _ _ Hm Hc). eauto.
  - rewrite (destroyMutex_unlocked_fail _ _ _ _ Hm Hc). eauto.
Qed.

Lemma C4_destroy_unlocked_witness :
  (∃ w', destroyMutex 7%nat (Some 2%positive) w_unlocked = Ret 0 w' ∧
     trace w' = trace w_unlocked ++
       [Call (MutexTrylock 7%nat 2%positive 0); Assign 7%nat 0;
        Call (MutexUnlock 7%nat 2%positive 0); Assign 7%nat 0;
        Call (MutexDestroy 2%positive 0); Assign 7%nat 0;
        Call (Free 2%positive)] ∧
     heap w' = delete 2%positive (heap w_unlocked)) ∧
  (∃ w', destroyMutex 7%nat (Some 2%positive) w_unlocked_faulty = Ret 1 w' ∧
     trace w' = trace w_unlocked_faulty ++
       [Call (MutexTrylock 7%nat 2%positive 0); Assign 7%nat 0;
        Call (MutexUnlock 7%nat 2%positive 0); Assign 7%nat 0;
        Call (MutexDestroy 2%positive (peek_fault w_unlocked_faulty));
        Assign 7%nat (peek_fault w_unlocked_faulty);
        Print (Report (peek_fault w_unlocked_faulty) __FILE__ "destroyMutex"
                 (Some "Could not destroy mutex."))] ∧
     heap w' = heap w_unlocked_faulty).
Proof.
  split.
  - apply (C4_destroy_unlocked 7%nat 2%positive w_unlocked).
    + vm_compute; reflexivity.
    + vm_compute; reflexivity.
  - apply (C4_destroy_unlocked 7%nat 2%positive w_unlocked_faulty).
    + vm_compute; reflexivity.
    + vm_compute; lia.
Defined.

(** C5. A thread that holds an initialized handle and calls [lockMutex] on
    it again gets 1 back: the call returns (it does not wait), the one
    primitive it called answered [EDEADLK], that code is reported, and the
    handle is still held by the thread. *)
Theorem C5_relock_fails (t : tid) (m : addr) (w : world) :
  state_of w (Some m) = LOCKED t →
  ∃ w', lockMutex t (Some m) w = Ret 1 w' ∧
    trace w' = trace w ++
      [Call (MutexLock t m EDEADLK); Assign t EDEADLK;
       Print (Report EDEADLK __FILE__ "lockMutex" (Some "Could not lock mutex."))] ∧
    heap w' = heap w ∧
    state_of w' (Some m) = LOCKED t.
Proof.
  intros (? & [= <-] & Hm)%state_of_LOCKED.
  rewrite (lockMutex_relock _ _ _ Hm). eexists. split_and!; try done.
  apply state_of_LOCKED. eauto.
Qed.

Lemma C5_relock_fails_witness :
  ∃ w', lockMutex 7%nat (Some 2%positive) w_locked = Ret 1 w' ∧
    trace w' = trace w_locked ++
      [Call (MutexLock 7%nat 2%positive EDEADLK); Assign 7%nat EDEADLK;
       Print (Report EDEADLK __FILE__ "lockMutex" (Some "Could not lock mutex."))] ∧
    heap w' = heap w_locked ∧
    state_of w' (Some 2%positive) = LOCKED 7%nat.
Proof.
  apply (C5_relock_fails 7%nat 2%positive w_locked).
  vm_compute; reflexivity.
Defined.

(** C6. A thread that calls [unlockMutex] on an initialized handle it does
    not hold (the handle is unlocked, or another thread holds it) gets 1
    back; the primitive answered [EPERM], that code is reported, and the
    heap, hence the state of the handle, is as it was. *)
Theorem C6_unlock_not_owner (t : tid) (m : addr) (w : world) :
  state_of w (Some m) ≠ UNINITIALIZED →
  state_of w (Some m) ≠ LOCKED t →
  ∃ w', unlockMutex t (Some m) w = Ret 1 w' ∧
    trace w' = trace w ++
      [Call (MutexUnlock t m EPERM); Assign t EPERM;
       Print (Report EPERM __FILE__ "unlockMutex"
                (Some "Could not unlock mutex."))] ∧
    heap w' = heap w ∧
    state_of w' (Some m) = state_of w (Some m).
Proof.
  intros Hinit Hother.
  assert (∃ o, heap w !! m = Some (Mutex PTHREAD_MUTEX_ERRORCHECK o) ∧
               o ≠ Some t) as (o & Hm & Ho).
  { unfold state_of in *.
    destruct (heap w !! m) as [[|?|[] [o|]]|]; try done; eexists; split;
      try done; congruence. }
  rewrite (unlockMutex_not_owner _ _ _ _ Hm Ho). eexists. split_and!; done.
Qed.

Lemma C6_unlock_not_owner_witness :
  (∃ w', unlockMutex 8%nat (Some 2%positive) w_locked = Ret 1 w' ∧
    trace w' = trace w_locked ++
      [Call (MutexUnlock 8%nat 2%positive EPERM); Assign 8%nat EPERM;
       Print (Report EPERM __FILE__ "unlockMutex"
                (Some "Could not unlock mutex."))] ∧
    heap w' = heap w_locked ∧
    state_of w' (Some 2%positive) = state_of w_locked (Some 2%positive)) ∧
  (∃ w', unlockMutex 8%nat (Some 2%positive) w_unlocked = Ret 1 w' ∧
    trace w' = trace w_unlocked ++
      [Call (MutexUnlock 8%nat 2%positive EPERM); Assign 8%nat EPERM;
       Print (Report EPERM __FILE__ "unlockMutex"
                (Some "Could not unlock mutex."))] ∧
    heap w' = heap w_unlocked ∧
    state_of w' (Some 2%positive) = state_of w_unlocked (Some 2%positive)).
Proof.
  split.
  - apply (C6_unlock_not_owner 8%nat 2%positive w_locked).
    + vm_compute. discriminate.
    + vm_compute. discriminate.
  - apply (C6_unlock_not_owner 8%nat 2%positive w_unlocked).
    + vm_compute. discriminate.
    + vm_compute. discriminate.
Defined.

(** C7. On an initialized, UNLOCKED handle, [lockMutex] and then
    [unlockMutex] by the same thread both return 0; the handle is LOCKED by
    the thread in between and UNLOCKED at the end, in a heap equal to the
    one at the start, and nothing is reported. *)
Theorem C7_lock_then_unlock (t : tid) (p : ptr) (w : world) :
  state_of w p = UNLOCKED →
  ∃ w1 w2, lockMutex t p w = Ret 0 w1 ∧ state_of w1 p = LOCKED t ∧
    unlockMutex t p w1 = Ret 0 w2 ∧ state_of w2 p = UNLOCKED ∧
    heap w2 = heap w ∧ log w2 = log w.
Proof.
  intros (m & -> & Hm)%state_of_UNLOCKED.
  rewrite (lockMutex_unlocked _ _ _ _ Hm). eexists _, _.
  split; [done|]. split; [apply state_of_insert|].
  erewrite unlockMutex_owner by apply lookup_insert_eq.
  split; [done|]. split; [apply state_of_insert|]. cbn [heap].
  split.
  - by rewrite insert_insert_eq, insert_id.
  - erewrite (log_app w); [|cbn [trace]; by rewrite <- app_assoc].
    cbn. by rewrite app_nil_r.
Qed.

Lemma C7_lock_then_unlock_witness :
  ∃ w1 w2, lockMutex 7%nat (Some 2%positive) w_unlocked = Ret 0 w1 ∧
    state_of w1 (Some 2%positive) = LOCKED 7%nat ∧
    unlockMutex 7%nat (Some 2%positive) w1 = Ret 0 w2 ∧
    state_of w2 (Some 2%positive) = UNLOCKED ∧
    heap w2 = heap w_unlocked ∧ log w2 = log w_unlocked.
Proof.
  apply (C7_lock_then_unlock 7%nat (Some 2%positive) w_unlocked).
  vm_compute; reflexivity.
Defined.

(** C8. Every operation that fails says so and reports it.  With a null
    handle, [lockMutex], [unlockMutex] and [destroyMutex] return (there is
    no crash), return 1, and hand one diagnostic to [printError].  Whatever
    the handle, a run of one of the three that returns nonzero returns 1 and
    added at least one diagnostic to the log.  [createMutex] always returns,
    and when it returns [NULL] it added at least one diagnostic. *)
Theorem C8_failures_are_reported (t : tid) (w : world) :
  (∃ w', lockMutex t NULL w = Ret 1 w' ∧
     log w' = log w ++ [Report 0 __FILE__ "lockMutex"
                          (Some "Could not lock mutex as it is null.")]) ∧
  (∃ w', unlockMutex t NULL w = Ret 1 w' ∧
     log w' = log w ++ [Report 0 __FILE__ "unlockMutex"
                          (Some "Could not unlock mutex as it is null.")]) ∧
  (∃ w', destroyMutex t NULL w = Ret 1 w' ∧
     log w' = log w ++ [Report 0 __FILE__ "destroyMutex"
                          (Some "Could not destroy mutex as it is null.")]) ∧
  (∀ p r w', lockMutex t p w = Ret r w' → r ≠ 0 →
     r = 1 ∧ ∃ rep reps, log w' = log w ++ rep :: reps) ∧
  (∀ p r w', unlockMutex t p w = Ret r w' → r ≠ 0 →
     r = 1 ∧ ∃ rep reps, log w' = log w ++ rep :: reps) ∧
  (∀ p r w', destroyMutex t p w = Ret r w' → r ≠ 0 →
     r = 1 ∧ ∃ rep reps, log w' = log w ++ rep :: reps) ∧
  (∃ p w', createMutex t w = Ret p w' ∧
     (p = NULL → ∃ rep reps, log w' = log w ++ rep :: reps)).
Proof.
  split_and!.
  - rewrite lockMutex_NULL. eexists. split; [done|].
    by erewrite (log_app w) by done.
  - rewrite unlockMutex_NULL. eexists. split; [done|].
    by erewrite (log_app w) by done.
  - rewrite destroyMutex_NULL. eexists. split; [done|].
    by erewrite (log_app w) by done.
  - intros p r w' Hrun Hr.
    destruct (on_return_inv _ _ _ _ (lockMutex_run t p w) Hrun)
      as (evs & Htr & _ & [?|[-> Hrep]]); [done|].
    split; [done|]. apply reports_cons in Hrep as (rep & reps & Hrep).
    exists rep, reps. by rewrite (log_app _ _ _ Htr), Hrep.
  - intros p r w' Hrun Hr.
    destruct (on_return_inv _ _ _ _ (unlockMutex_run t p w) Hrun)
      as (evs & Htr & _ & [?|[-> Hrep]]); [done|].
    split; [done|]. apply reports_cons in Hrep as (rep & reps & Hrep).
    exists rep, reps. by rewrite (log_app _ _ _ Htr), Hrep.
  - intros p r w' Hrun Hr.
    destruct (on_return_inv _ _ _ _ (destroyMutex_run t p w) Hrun)
      as (evs & Htr & _ & [[? _]|(-> & Hrep & _)]); [done|].
    split; [done|]. apply reports_cons in Hrep as (rep & reps & Hrep).
    exists rep, reps. by rewrite (log_app _ _ _ Htr), Hrep.
  - destruct (returns_inv _ _ (createMutex_returns t w))
      as (p & w' & Hrun & evs & Htr & _ & Hpost).
    exists p, w'. split; [done|]. intros ->. destruct Hpost as [Hrep _].
    apply reports_cons in Hrep as (rep & reps & Hrep).
    exists rep, reps. by rewrite (log_app _ _ _ Htr), Hrep.
Qed.

Lemma C8_failures_are_reported_witness :
  (∃ w', lockMutex 7%nat (Some 2%positive) w_locked = Ret 1 w' ∧
     ∃ rep reps, log w' = log w_locked ++ rep :: reps) ∧
  (∃ w', unlockMutex 7%nat (Some 2%positive) w_unlocked = Ret 1 w' ∧
     ∃ rep reps, log w' = log w_unlocked ++ rep :: reps) ∧
  (∃ w', destroyMutex 7%nat (Some 2%positive) w_locked = Ret 1 w' ∧
     ∃ rep reps, log w' = log w_locked ++ rep :: reps).
Proof.
  split_and!; eexists; (split; [vm_compute; reflexivity|]).
  - eapply (proj1 (proj2 (proj2 (proj2
              (C8_failures_are_reported 7%nat w_locked))))
            (Some 2%positive) 1).
    + vm_compute; reflexivity.
    + lia.
  - eapply (proj1 (proj2 (proj2 (proj2 (proj2
              (C8_failures_are_reported 7%nat w_unlocked)))))
            (Some 2%positive) 1).
    + vm_compute; reflexivity.
    + lia.
  - eapply (proj1 (proj2 (proj2 (proj2 (proj2 (proj2
              (C8_failures_are_reported 7%nat w_locked))))))
            (Some 2%positive) 1).
    + vm_compute; reflexivity.
    + lia.
Defined.

(** C9. In every run of every operation, a pthread call that returns a
    nonzero code is followed at once by the assignment of that code to the
    calling thread's [errno], and that by a diagnostic carrying the code: the
    assignment comes before the report.  With a null handle, [lockMutex],
    [unlockMutex] and [destroyMutex] report the code 0 and do nothing else:
    [errno] is as it was. *)
Theorem C9_errno_before_report (t : tid) (w : world) :
  (∀ p r w', lockMutex t p w = Ret r w' →
     ∃ evs, trace w' = trace w ++ evs ∧ errno_before_report t evs) ∧
  (∀ p r w', unlockMutex t p w = Ret r w' →
     ∃ evs, trace w' = trace w ++ evs ∧ errno_before_report t evs) ∧
  (∀ p r w', destroyMutex t p w = Ret r w' →
     ∃ evs, trace w' = trace w ++ evs ∧ errno_before_report t evs) ∧
  (∀ p w', createMutex t w = Ret p w' →
     ∃ evs, trace w' = trace w ++ evs ∧ errno_before_report t evs) ∧
  (∃ w', lockMutex t NULL w = Ret 1 w' ∧
     trace w' = trace w ++ [Print (Report 0 __FILE__ "lockMutex"
                              (Some "Could not lock mutex as it is null."))] ∧
     errno_tls w' = errno_tls w) ∧
  (∃ w', unlockMutex t NULL w = Ret 1 w' ∧
     trace w' = trace w ++ [Print (Report 0 __FILE__ "unlockMutex"
                              (Some "Could not unlock mutex as it is null."))] ∧
     errno_tls w' = errno_tls w) ∧
  (∃ w', destroyMutex t NULL w = Ret 1 w' ∧
     trace w' = trace w ++ [Print (Report 0 __FILE__ "destroyMutex"
                              (Some "Could not destroy mutex as it is null."))] ∧
     errno_tls w' = errno_tls w).
Proof.
  split_and!.
  - intros p r w' Hrun.
    destruct (on_return_inv _ _ _ _ (lockMutex_run t p w) Hrun)
      as (evs & Htr & Hd & _).
    eauto using errno_discipline_sound.
  - intros p r w' Hrun.
    destruct (on_return_inv _ _ _ _ (unlockMutex_run t p w) Hrun)
      as (evs & Htr & Hd & _).
    eauto using errno_discipline_sound.
  - intros p r w' Hrun.
    destruct (on_return_inv _ _ _ _ (destroyMutex_run t p w) Hrun)
      as (evs & Htr & Hd & _).
    eauto using errno_discipline_sound.
  - intros p w' Hrun.
    pose proof (createMutex_returns t w) as Hpost. rewrite Hrun in Hpost.
    destruct Hpost as (evs & Htr & Hd & _).
    eauto using errno_discipline_sound.
  - rewrite lockMutex_NULL. eauto.
  - rewrite unlockMutex_NULL. eauto.
  - rewrite destroyMutex_NULL. eauto.
Qed.

Lemma C9_errno_before_report_witness :
  (∃ w', lockMutex 7%nat (Some 2%positive) w_locked = Ret 1 w' ∧
     ∃ evs, trace w' = trace w_locked ++ evs ∧ errno_before_report 7%nat evs) ∧
  (∃ w', unlockMutex 7%nat (Some 2%positive) w_unlocked = Ret 1 w' ∧
     ∃ evs, trace w' = trace w_unlocked ++ evs ∧ errno_before_report 7%nat evs) ∧
  (∃ w', destroyMutex 7%nat (Some 2%positive) w_unlocked_faulty = Ret 1 w' ∧
     ∃ evs, trace w' = trace w_unlocked_faulty ++ evs ∧
       errno_before_report 7%nat evs) ∧
  (∃ w', createMutex 7%nat w_leak = Ret NULL w' ∧
     ∃ evs, trace w' = trace w_leak ++ evs ∧ errno_before_report 7%nat evs).
Proof.
  split_and!; eexists; (split; [vm_compute; reflexivity|]).
  - eapply (proj1 (C9_errno_before_report 7%nat w_locked)
              (Some 2%positive) 1).
    vm_compute; reflexivity.
  - eapply (proj1 (proj2 (C9_errno_before_report 7%nat w_unlocked))
              (Some 2%positive) 1).
    vm_compute; reflexivity.
  - eapply (proj1 (proj2 (proj2
              (C9_errno_before_report 7%nat w_unlocked_faulty)))
              (Some 2%positive) 1).
    vm_compute; reflexivity.
  - eapply (proj1 (proj2 (proj2 (proj2
              (C9_errno_before_report 7%nat w_leak)))) NULL).
    vm_compute; reflexivity.
Defined.

(** C10. A run of [destroyMutex] that returns failure released nothing: the
    heap is as it was, no [free] and no successful [pthread_mutex_destroy]
    is among its calls, and the handle, when not null, still points to an
    initialized mutex.  The one run that frees the handle is the one that
    returns 0, and its calls are the probe, the release of the probe, the
    teardown and the [free], each successful, in that order. *)
Theorem C10_failed_destroy_releases_nothing
    (t : tid) (p : ptr) (w : world) (r : Z) (w' : world) :
  destroyMutex t p w = Ret r w' →
  ∃ evs, trace w' = trace w ++ evs ∧
    (r ≠ 0 →
     heap w' = heap w ∧
     state_of w' p = state_of w p ∧
     (∀ a, (Call (Free a) ∉ evs) ∧ (Call (MutexDestroy a 0) ∉ evs)) ∧
     (∀ m, p = Some m → ∃ ty o, heap w' !! m = Some (Mutex ty o))) ∧
    (r = 0 →
     ∃ m, p = Some m ∧ evs = teardown t m ∧ heap w' = delete m (heap w)).
Proof.
  intros Hrun.
  destruct (on_return_inv _ _ _ _ (destroyMutex_run t p w) Hrun)
    as (evs & Htr & _ & [(-> & Hok)|(-> & _ & Hheap & Hrel & Hp)]).
  - exists evs. split_and!; done.
  - exists evs. split_and!; [done| |done]. intros _. split_and!.
    + done.
    + unfold state_of. by rewrite Hheap.
    + by apply no_release.
    + intros m ->. by rewrite Hheap.
Qed.

Lemma C10_failed_destroy_releases_nothing_witness :
  (∃ w', destroyMutex 8%nat (Some 2%positive) w_locked = Ret 1 w' ∧
     ∃ evs, trace w' = trace w_locked ++ evs ∧
       (1 ≠ 0 →
        heap w' = heap w_locked ∧
        state_of w' (Some 2%positive) = state_of w_locked (Some 2%positive) ∧
        (∀ a, (Call (Free a) ∉ evs) ∧ (Call (MutexDestroy a 0) ∉ evs)) ∧
        (∀ m, Some 2%positive = Some m →
           ∃ ty o, heap w' !! m = Some (Mutex ty o))) ∧
       (1 = 0 →
        ∃ m, Some 2%positive = Some m ∧ evs = teardown 8%nat m ∧
          heap w' = delete m (heap w_locked))) ∧
  (∃ w', destroyMutex 8%nat (Some 2%positive) w_unlocked_faulty = Ret 1 w' ∧
     ∃ evs, trace w' = trace w_unlocked_faulty ++ evs ∧
       (1 ≠ 0 →
        heap w' = heap w_unlocked_faulty ∧
        state_of w' (Some 2%positive)
          = state_of w_unlocked_faulty (Some 2%positive) ∧
        (∀ a, (Call (Free a) ∉ evs) ∧ (Call (MutexDestroy a 0) ∉ evs)) ∧
        (∀ m, Some 2%positive = Some m →
           ∃ ty o, heap w' !! m = Some (Mutex ty o))) ∧
       (1 = 0 →
        ∃ m, Some 2%positive = Some m ∧ evs = teardown 8%nat m ∧
          heap w' = delete m (heap w_unlocked_faulty))).
Proof.
  split; eexists; (split; [vm_compute; reflexivity|]).
  - apply (C10_failed_destroy_releases_nothing 8%nat (Some 2%positive)
             w_locked 1).
    vm_compute; reflexivity.
  - apply (C10_failed_destroy_releases_nothing 8%nat (Some 2%positive)
             w_unlocked_faulty 1).
    vm_compute; reflexivity.
Defined.

(** * Further properties of mutex.c *)

(** ** Inversion of the handle operations *)

Lemma lockMutex_inv t p w r w' :
  lockMutex t p w = Ret r w' → lock_run t w p r w'.
Proof.
  destruct p as [m|]; [|rewrite lockMutex_NULL; intros [= <- <-]; constructor].
  destruct (heap w !! m) as [[|ty|ty [o|]]|] eqn:Hm.
  - by exec.
  - by exec.
  - destruct (decide (o = t)) as [->|]; [destruct ty|].
    + by rewrite (lockMutex_relock_normal _ _ _ Hm).
    + rewrite (lockMutex_relock _ _ _ Hm). intros [= <- <-]. by constructor.
    + by erewrite lockMutex_contended.
  - rewrite (lockMutex_unlocked _ _ _ _ Hm). intros [= <- <-].
    by econstructor.
  - by exec.
Qed.

Lemma unlockMutex_inv t p w r w' :
  unlockMutex t p w = Ret r w' → unlock_run t w p r w'.
Proof.
  destruct p as [m|];
    [|rewrite unlockMutex_NULL; intros [= <- <-]; constructor].
  destruct (heap w !! m) as [[|ty|ty o]|] eqn:Hm.
  - by exec.
  - by exec.
  - destruct (decide (o = Some t)) as [->|]; [|destruct ty].
    + rewrite (unlockMutex_owner _ _ _ _ Hm). intros [= <- <-].
      by econstructor.
    + by erewrite unlockMutex_not_owner_normal.
    + erewrite unlockMutex_not_owner by done. intros [= <- <-].
      by econstructor.
  - by exec.
Qed.

Lemma destroyMutex_inv t p w r w' :
  destroyMutex t p w = Ret r w' → destroy_run t w p r w'.
Proof.
  destruct p as [m|];
    [|rewrite destroyMutex_NULL; intros [= <- <-]; constructor].
  destruct (heap w !! m) as [[|ty|ty [o|]]|] eqn:Hm.
  - by exec.
  - by exec.
  - rewrite (destroyMutex_locked _ _ _ _ _ Hm). intros [= <- <-].
    by econstructor.
  - destruct (decide (peek_fault w = 0)) as [Hc|Hc].
    + rewrite (destroyMutex_unlocked_ok _ _ _ _ Hm Hc). intros [= <- <-].
      by econstructor.
    + rewrite (destroyMutex_unlocked_fail _ _ _ _ Hm Hc). intros [= <- <-].
      by econstructor.
  - by exec.
Qed.

(** A handle that points to no mutex: the primitive is called all the same. *)
Lemma handle_ops_dangling t m w :
  (∀ ty o, heap w !! m ≠ Some (Mutex ty o)) →
  lockMutex t (Some m) w = Undefined ∧
  unlockMutex t (Some m) w = Undefined ∧
  destroyMutex t (Some m) w = Undefined.
Proof.
  intros Hm.
  destruct (heap w !! m) as [[|ty|ty o]|] eqn:E; try (by destruct (Hm ty o)).
  all: split_and!; by exec.
Qed.

(** ** Construct, once more: [errno] and the log *)

(** Closes what is left at the end of a path of a constructor. *)
Ltac construct_leaf :=
  norm_trace; rewrite ?log_World; cbn [reports omap]; rewrite ?app_nil_r;
  unfold ENOMEM in *;
  repeat match goal with
         | |- _ ∧ _ => split
         | |- ∃ _ : report, _ => eexists
         | |- ∀ _, _ => intro
         | |- _ → _ => intro
         end;
  try done;
  first [ by rewrite lookup_insert_ne | heap_eq ].

Lemma createMutexAttribute_returns t w :
  returns (createMutexAttribute t w)
    (λ r w', createMutexAttribute_post t w r w' ∧ construct_quiet t w r w').
Proof.
  unfold returns, createMutexAttribute_post, construct_quiet. explore.
  all: construct_leaf.
Qed.

Lemma createMutex_quiet t w :
  returns (createMutex t w) (construct_quiet t w).
Proof.
  unfold returns, construct_quiet. explore.
  all: construct_leaf.
Qed.

(** ** The attribute helpers *)

Lemma destroyMutexAttribute_NULL t w :
  destroyMutexAttribute t NULL w =
    Ret 1 (World (heap w) (errno_tls w) (faults w)
             (trace w ++ [Print (Report 0 __FILE__ "destroyMutexAttribute"
                            (Some "Could not destroy attribute as it is null."))])).
Proof. by exec. Qed.

Lemma destroyMutexAttribute_ok t a ty w :
  heap w !! a = Some (Attr ty) → peek_fault w = 0 →
  destroyMutexAttribute t (Some a) w =
    Ret 0 (World (delete a (heap w)) (<[t := 0]> (errno_tls w))
             (tail (faults w))
             (trace w ++ [Call (MutexattrDestroy a 0); Assign t 0;
                Call (Free a)])).
Proof.
  intros Ha Hc. exec. unfold peek_fault in *. red_world. rewrite Hc. exec.
  norm_trace. by rewrite delete_insert_eq.
Qed.

Lemma destroyMutexAttribute_fail t a ty w :
  heap w !! a = Some (Attr ty) → peek_fault w ≠ 0 →
  destroyMutexAttribute t (Some a) w =
    Ret 1 (World (heap w) (<[t := peek_fault w]> (errno_tls w))
             (tail (faults w))
             (trace w ++ [Call (MutexattrDestroy a (peek_fault w));
                Assign t (peek_fault w);
                Print (Report (peek_fault w) __FILE__ "destroyMutexAttribute"
                         (Some "Could not destroy attribute."))])).
Proof.
  intros Ha Hc. exec. unfold peek_fault in *. red_world. exec.
  by norm_trace.
Qed.

(** X1. [createMutexAttribute] always returns.  A non-null result is a
    block that was not allocated before and now holds an attribute of type
    [PTHREAD_MUTEX_ERRORCHECK], and nothing was reported.  A null result
    leaves the heap as it was (the block, once allocated, is freed), with
    exactly one diagnostic, from [createMutexAttribute], whose nonzero code
    is the one left in [errno]. *)
Theorem X1_createMutexAttribute_errorcheck_or_clean (t : tid) (w : world) :
  ∃ r w', createMutexAttribute t w = Ret r w' ∧
    match r with
    | Some a =>
        heap w !! a = None ∧
        heap w' = <[a := Attr PTHREAD_MUTEX_ERRORCHECK]> (heap w) ∧
        log w' = log w
    | None =>
        heap w' = heap w ∧
        ∃ rep, log w' = log w ++ [rep] ∧
          rep_function rep = "createMutexAttribute" ∧
          rep_code rep = errno_of t w' ∧ rep_code rep ≠ 0
    end.
Proof.
  destruct (returns_inv _ _ (createMutexAttribute_returns t w))
    as (r & w' & Hrun & Hpost & _).
  by exists r, w'.
Qed.

(** X2. [destroyMutexAttribute] on an initialized attribute: when
    [pthread_mutexattr_destroy] succeeds the block is freed and 0 is
    returned, silently; when it fails with code [c] the function returns 1
    before its [free], so the attribute stays allocated and initialized, [c]
    is in [errno] and "Could not destroy attribute." is reported with it. *)
Theorem X2_destroyMutexAttribute_frees_only_on_success
    (t : tid) (a : addr) (ty : mutex_type) (w : world) :
  heap w !! a = Some (Attr ty) →
  (peek_fault w = 0 →
   ∃ w', destroyMutexAttribute t (Some a) w = Ret 0 w' ∧
     heap w' = delete a (heap w) ∧ log w' = log w) ∧
  (peek_fault w ≠ 0 →
   ∃ w', destroyMutexAttribute t (Some a) w = Ret 1 w' ∧
     heap w' = heap w ∧
     errno_of t w' = peek_fault w ∧
     log w' = log w ++ [Report (peek_fault w) __FILE__ "destroyMutexAttribute"
                          (Some "Could not destroy attribute.")]).
Proof.
  intros Ha. split; intros Hc.
  - rewrite (destroyMutexAttribute_ok _ _ _ _ Ha Hc). eexists.
    split_and!; [done..|]. rewrite log_World. cbn. by rewrite app_nil_r.
  - rewrite (destroyMutexAttribute_fail _ _ _ _ Ha Hc). eexists.
    split_and!; [done..| |].
    + apply errno_of_set.
    + by rewrite log_World.
Qed.

Lemma X2_destroyMutexAttribute_frees_only_on_success_witness :
  (∃ w', destroyMutexAttribute 7%nat (Some 1%positive) w_attr = Ret 0 w' ∧
     heap w' = delete 1%positive (heap w_attr) ∧ log w' = log w_attr) ∧
  (∃ w', destroyMutexAttribute 7%nat (Some 1%positive) w_attr_faulty = Ret 1 w' ∧
     heap w' = heap w_attr_faulty ∧
     errno_of 7%nat w' = peek_fault w_attr_faulty ∧
     log w' = log w_attr_faulty ++
       [Report (peek_fault w_attr_faulty) __FILE__ "destroyMutexAttribute"
          (Some "Could not destroy attribute.")]).
Proof.
  split.
  - apply (X2_destroyMutexAttribute_frees_only_on_success 7%nat 1%positive
             PTHREAD_MUTEX_ERRORCHECK w_attr).
    + vm_compute; reflexivity.
    + vm_compute; reflexivity.
  - apply (X2_destroyMutexAttribute_frees_only_on_success 7%nat 1%positive
             PTHREAD_MUTEX_ERRORCHECK w_attr_faulty).
    + vm_compute; reflexivity.
    + vm_compute; lia.
Defined.

(** X3. Round trip of the attribute helpers: an attribute that
    [createMutexAttribute] returned, handed to [destroyMutexAttribute] by
    any thread when [pthread_mutexattr_destroy] does not fail, is destroyed
    and freed, and the heap is the one before the creation. *)
Theorem X3_attribute_round_trip
    (t t' : tid) (a : addr) (w w1 : world) :
  createMutexAttribute t w = Ret (Some a) w1 →
  peek_fault w1 = 0 →
  ∃ w2, destroyMutexAttribute t' (Some a) w1 = Ret 0 w2 ∧
    heap w2 = heap w ∧ log w2 = log w.
Proof.
  intros Hrun Hc.
  pose proof (createMutexAttribute_returns t w) as Hpost.
  rewrite Hrun in Hpost. destruct Hpost as [(Hfree & Hheap & Hlog) _].
  erewrite destroyMutexAttribute_ok; [|by rewrite Hheap, lookup_insert_eq|done].
  eexists. split_and!; [done| |].
  - cbn [heap]. rewrite Hheap, delete_insert_eq. by apply delete_id.
  - rewrite log_World. cbn. by rewrite app_nil_r.
Qed.

Lemma X3_attribute_round_trip_witness :
  ∃ w1, createMutexAttribute 7%nat w_empty = Ret (Some 1%positive) w1 ∧
    ∃ w2, destroyMutexAttribute 8%nat (Some 1%positive) w1 = Ret 0 w2 ∧
      heap w2 = heap w_empty ∧ log w2 = log w_empty.
Proof.
  eexists. split; [vm_compute; reflexivity|].
  eapply (X3_attribute_round_trip 7%nat 8%nat 1%positive w_empty).
  - vm_compute; reflexivity.
  - vm_compute; reflexivity.
Defined.

(** X4. Round trip of the public pair: a handle that [createMutex]
    returned, handed to [destroyMutex] by any thread when
    [pthread_mutex_destroy] does not fail, is destroyed with result 0, and
    the heap and the log are those before the creation: the pair allocates
    nothing that it does not free and reports nothing. *)
Theorem X4_createMutex_destroyMutex_round_trip
    (t t' : tid) (m : addr) (w w1 : world) :
  createMutex t w = Ret (Some m) w1 →
  peek_fault w1 = 0 →
  ∃ w2, destroyMutex t' (Some m) w1 = Ret 0 w2 ∧
    heap w2 = heap w ∧ log w2 = log w.
Proof.
  intros Hrun Hc.
  pose proof (createMutex_returns t w) as Hpost.
  pose proof (createMutex_quiet t w) as Hquiet.
  rewrite Hrun in Hpost, Hquiet.
  destruct Hpost as (evs & _ & _ & Hfree & Hheap).
  destruct Hquiet as [_ Hlog]. destruct Hlog as [_ Hlog]; [done|].
  erewrite destroyMutex_unlocked_ok; [|by rewrite Hheap, lookup_insert_eq|done].
  eexists. split_and!; [done| |].
  - cbn [heap]. rewrite Hheap, delete_insert_eq. by apply delete_id.
  - rewrite log_World. cbn. by rewrite app_nil_r.
Qed.

Lemma X4_createMutex_destroyMutex_round_trip_witness :
  ∃ w1, createMutex 7%nat w_empty = Ret (Some 2%positive) w1 ∧
    ∃ w2, destroyMutex 8%nat (Some 2%positive) w1 = Ret 0 w2 ∧
      heap w2 = heap w_empty ∧ log w2 = log w_empty.
Proof.
  eexists. split; [vm_compute; reflexivity|].
  eapply (X4_createMutex_destroyMutex_round_trip 7%nat 8%nat 2%positive w_empty).
  - vm_compute; reflexivity.
  - vm_compute; reflexivity.
Defined.

(** ** Safety of the handle operations *)

(** X5. A handle is destroyed once.  After a [destroyMutex] that returned
    0, the handle points to freed memory; the code has no guard for that, so
    [lockMutex], [unlockMutex] and a second [destroyMutex] on it pass the
    null test and hand the pointer to the pthread primitive: undefined
    behaviour, not a reported failure. *)
Theorem X5_use_after_destroy_is_undefined
    (t t' : tid) (p : ptr) (w w' : world) :
  destroyMutex t p w = Ret 0 w' →
  lockMutex t' p w' = Undefined ∧
  unlockMutex t' p w' = Undefined ∧
  destroyMutex t' p w' = Undefined.
Proof.
  intros Hrun%destroyMutex_inv. inversion Hrun; subst.
  apply handle_ops_dangling. intros ty' o. cbn [heap].
  by rewrite lookup_delete_eq.
Qed.

Lemma X5_use_after_destroy_is_undefined_witness :
  ∃ w', destroyMutex 7%nat (Some 2%positive) w_unlocked = Ret 0 w' ∧
    lockMutex 8%nat (Some 2%positive) w' = Undefined ∧
    unlockMutex 8%nat (Some 2%positive) w' = Undefined ∧
    destroyMutex 8%nat (Some 2%positive) w' = Undefined.
Proof.
  eexists. split; [vm_compute; reflexivity|].
  apply (X5_use_after_destroy_is_undefined 7%nat 8%nat (Some 2%positive)
           w_unlocked).
  vm_compute; reflexivity.
Defined.

(** X6. An operation on one handle leaves every other block of the heap as
    it is: whatever [lockMutex], [unlockMutex] or [destroyMutex] returns,
    a block at an address other than the handle's is unchanged. *)
Theorem X6_handle_operations_frame
    (t : tid) (p : ptr) (w : world) (r : Z) (w' : world) (a : addr) :
  p ≠ Some a →
  lockMutex t p w = Ret r w' ∨ unlockMutex t p w = Ret r w' ∨
    destroyMutex t p w = Ret r w' →
  heap w' !! a = heap w !! a.
Proof.
  intros Hp [Hrun%lockMutex_inv|[Hrun%unlockMutex_inv|Hrun%destroyMutex_inv]];
    inversion Hrun; subst; cbn [heap]; try done.
  - apply lookup_insert_ne. congruence.
  - apply lookup_insert_ne. congruence.
  - apply lookup_delete_ne. congruence.
Qed.

Lemma X6_handle_operations_frame_witness :
  (∃ w', lockMutex 8%nat (Some 2%positive) w_two = Ret 0 w' ∧
     heap w' !! 3%positive = heap w_two !! 3%positive) ∧
  (∃ w', unlockMutex 7%nat (Some 3%positive) w_two = Ret 0 w' ∧
     heap w' !! 2%positive = heap w_two !! 2%positive) ∧
  (∃ w', destroyMutex 8%nat (Some 2%positive) w_two = Ret 0 w' ∧
     heap w' !! 3%positive = heap w_two !! 3%positive).
Proof.
  split_and!; eexists; (split; [vm_compute; reflexivity|]).
  - apply (X6_handle_operations_frame 8%nat (Some 2%positive) w_two 0).
    + discriminate.
    + left. vm_compute; reflexivity.
  - apply (X6_handle_operations_frame 7%nat (Some 3%positive) w_two 0).
    + discriminate.
    + right. left. vm_compute; reflexivity.
  - apply (X6_handle_operations_frame 8%nat (Some 2%positive) w_two 0).
    + discriminate.
    + right. right. vm_compute; reflexivity.
Defined.

(** X7. [createMutex] leaves every block that is already allocated as it
    is, whether it succeeds or fails: constructing a handle never disturbs
    a live one. *)
Theorem X7_createMutex_frame
    (t : tid) (w : world) (r : ptr) (w' : world) (a : addr) :
  createMutex t w = Ret r w' →
  is_Some (heap w !! a) →
  heap w' !! a = heap w !! a.
Proof.
  intros Hrun [b Hb].
  pose proof (createMutex_returns t w) as Hpost. rewrite Hrun in Hpost.
  destruct Hpost as (evs & _ & _ & Hpost). destruct r as [m|].
  - destruct Hpost as [Hfree ->]. apply lookup_insert_ne. congruence.
  - destruct Hpost as [_ [->|(a' & c & _ & Hfree & -> & _)]]; [done|].
    apply lookup_insert_ne. congruence.
Qed.

Lemma X7_createMutex_frame_witness :
  ∃ r w', createMutex 8%nat w_two = Ret r w' ∧
    heap w' !! 3%positive = heap w_two !! 3%positive.
Proof.
  eexists _, _. split; [vm_compute; reflexivity|].
  eapply (X7_createMutex_frame 8%nat w_two).
  - vm_compute; reflexivity.
  - eexists. vm_compute; reflexivity.
Defined.

(** ** [errno] and the log *)

(** X8. [errno] is touched for the calling thread only: whatever one of the
    four public operations run by [t] returns, the [errno] of any other
    thread is as it was. *)
Theorem X8_errno_is_thread_local (t t' : tid) (w : world) :
  t' ≠ t →
  (∀ p r w', lockMutex t p w = Ret r w' → errno_of t' w' = errno_of t' w) ∧
  (∀ p r w', unlockMutex t p w = Ret r w' → errno_of t' w' = errno_of t' w) ∧
  (∀ p r w', destroyMutex t p w = Ret r w' → errno_of t' w' = errno_of t' w) ∧
  (∀ r w', createMutex t w = Ret r w' → errno_of t' w' = errno_of t' w).
Proof.
  intros Ht. unfold errno_of. split_and!.
  - intros p r w' Hrun%lockMutex_inv.
    inversion Hrun; subst; cbn [errno_tls]; by rewrite ?lookup_insert_ne.
  - intros p r w' Hrun%unlockMutex_inv.
    inversion Hrun; subst; cbn [errno_tls]; by rewrite ?lookup_insert_ne.
  - intros p r w' Hrun%destroyMutex_inv.
    inversion Hrun; subst; cbn [errno_tls]; by rewrite ?lookup_insert_ne.
  - intros r w' Hrun.
    pose proof (createMutex_quiet t w) as Hquiet. rewrite Hrun in Hquiet.
    destruct Hquiet as [Hother _]. by rewrite Hother.
Qed.

Lemma X8_errno_is_thread_local_witness :
  (∃ w', lockMutex 7%nat (Some 3%positive) w_two = Ret 1 w' ∧
     errno_of 9%nat w' = errno_of 9%nat w_two) ∧
  (∃ w', unlockMutex 7%nat (Some 2%positive) w_two = Ret 1 w' ∧
     errno_of 9%nat w' = errno_of 9%nat w_two) ∧
  (∃ w', destroyMutex 7%nat (Some 3%positive) w_two = Ret 1 w' ∧
     errno_of 9%nat w' = errno_of 9%nat w_two) ∧
  (∃ r w', createMutex 7%nat w_two = Ret r w' ∧
     errno_of 9%nat w' = errno_of 9%nat w_two).
Proof.
  assert (9%nat ≠ 7%nat) as Hne by lia.
  destruct (X8_errno_is_thread_local 7%nat 9%nat w_two Hne)
    as (Hlock & Hunlock & Hdestroy & Hcreate).
  split_and!.
  - eexists. split; [vm_compute; reflexivity|].
    apply (Hlock (Some 3%positive) 1). vm_compute; reflexivity.
  - eexists. split; [vm_compute; reflexivity|].
    apply (Hunlock (Some 2%positive) 1). vm_compute; reflexivity.
  - eexists. split; [vm_compute; reflexivity|].
    apply (Hdestroy (Some 3%positive) 1). vm_compute; reflexivity.
  - eexists _, _. split; [vm_compute; reflexivity|].
    eapply Hcreate. vm_compute; reflexivity.
Defined.

(** X9. Success is silent and clears [errno]: a [lockMutex], [unlockMutex]
    or [destroyMutex] that returns 0, and a [createMutex] that returns a
    handle, reported nothing and left 0 in the caller's [errno], whatever
    was there before (each assigns the result of its last pthread call). *)
Theorem X9_success_is_silent_and_clears_errno (t : tid) (w : world) :
  (∀ p w', lockMutex t p w = Ret 0 w' → errno_of t w' = 0 ∧ log w' = log w) ∧
  (∀ p w', unlockMutex t p w = Ret 0 w' → errno_of t w' = 0 ∧ log w' = log w) ∧
  (∀ p w', destroyMutex t p w = Ret 0 w' → errno_of t w' = 0 ∧ log w' = log w) ∧
  (∀ m w', createMutex t w = Ret (Some m) w' →
     errno_of t w' = 0 ∧ log w' = log w).
Proof.
  split_and!.
  - intros p w' Hrun%lockMutex_inv. inversion Hrun; subst.
    split; [apply errno_of_set|]. rewrite log_World. cbn. by rewrite app_nil_r.
  - intros p w' Hrun%unlockMutex_inv. inversion Hrun; subst.
    split; [apply errno_of_set|]. rewrite log_World. cbn. by rewrite app_nil_r.
  - intros p w' Hrun%destroyMutex_inv. inversion Hrun; subst.
    split; [apply errno_of_set|]. rewrite log_World. cbn. by rewrite app_nil_r.
  - intros m w' Hrun.
    pose proof (createMutex_quiet t w) as Hquiet. rewrite Hrun in Hquiet.
    by apply Hquiet.
Qed.

Lemma X9_success_is_silent_and_clears_errno_witness :
  (∃ w', lockMutex 9%nat (Some 2%positive) w_two = Ret 0 w' ∧
     errno_of 9%nat w_two = EBUSY ∧
     errno_of 9%nat w' = 0 ∧ log w' = log w_two) ∧
  (∃ w', unlockMutex 7%nat (Some 3%positive) w_two = Ret 0 w' ∧
     errno_of 7%nat w' = 0 ∧ log w' = log w_two) ∧
  (∃ w', destroyMutex 9%nat (Some 2%positive) w_two = Ret 0 w' ∧
     errno_of 9%nat w' = 0 ∧ log w' = log w_two) ∧
  (∃ m w', createMutex 9%nat w_two = Ret (Some m) w' ∧
     errno_of 9%nat w' = 0 ∧ log w' = log w_two).
Proof.
  split_and!.
  - eexists. split; [vm_compute; reflexivity|].
    split; [vm_compute; reflexivity|].
    apply (proj1 (X9_success_is_silent_and_clears_errno 9%nat w_two)
             (Some 2%positive)).
    vm_compute; reflexivity.
  - eexists. split; [vm_compute; reflexivity|].
    apply (proj1 (proj2 (X9_success_is_silent_and_clears_errno 7%nat w_two))
             (Some 3%positive)).
    vm_compute; reflexivity.
  - eexists. split; [vm_compute; reflexivity|].
    apply (proj1 (proj2 (proj2
             (X9_success_is_silent_and_clears_errno 9%nat w_two)))
             (Some 2%positive)).
    vm_compute; reflexivity.
  - eexists _, _. split; [vm_compute; reflexivity|].
    eapply (proj2 (proj2 (proj2
              (X9_success_is_silent_and_clears_errno 9%nat w_two)))).
    vm_compute; reflexivity.
Defined.

(** X10. A failure on a non-null handle leaves its cause in [errno]: the
    run reported exactly one diagnostic, whose code is nonzero and is the
    value of the caller's [errno] on return; the code is [EDEADLK] for
    [lockMutex] and [EPERM] for [unlockMutex]. *)
Theorem X10_failure_leaves_its_code_in_errno
    (t : tid) (m : addr) (w w' : world) :
  (lockMutex t (Some m) w = Ret 1 w' →
   errno_of t w' = EDEADLK ∧
   ∃ rep, log w' = log w ++ [rep] ∧ rep_code rep = EDEADLK) ∧
  (unlockMutex t (Some m) w = Ret 1 w' →
   errno_of t w' = EPERM ∧
   ∃ rep, log w' = log w ++ [rep] ∧ rep_code rep = EPERM) ∧
  (destroyMutex t (Some m) w = Ret 1 w' →
   errno_of t w' ≠ 0 ∧
   ∃ rep, log w' = log w ++ [rep] ∧ rep_code rep = errno_of t w').
Proof.
  split_and!.
  - intros Hrun%lockMutex_inv. inversion Hrun; subst.
    rewrite errno_of_set, log_World. eauto.
  - intros Hrun%unlockMutex_inv. inversion Hrun; subst.
    rewrite errno_of_set, log_World. eauto.
  - intros Hrun%destroyMutex_inv. inversion Hrun; subst;
      rewrite errno_of_set, log_World; eauto.
Qed.

Lemma X10_failure_leaves_its_code_in_errno_witness :
  (∃ w', lockMutex 7%nat (Some 2%positive) w_locked = Ret 1 w' ∧
     errno_of 7%nat w' = EDEADLK ∧
     ∃ rep, log w' = log w_locked ++ [rep] ∧ rep_code rep = EDEADLK) ∧
  (∃ w', unlockMutex 8%nat (Some 2%positive) w_locked = Ret 1 w' ∧
     errno_of 8%nat w' = EPERM ∧
     ∃ rep, log w' = log w_locked ++ [rep] ∧ rep_code rep = EPERM) ∧
  (∃ w', destroyMutex 8%nat (Some 2%positive) w_unlocked_faulty = Ret 1 w' ∧
     errno_of 8%nat w' ≠ 0 ∧
     ∃ rep, log w' = log w_unlocked_faulty ++ [rep] ∧
       rep_code rep = errno_of 8%nat w').
Proof.
  split_and!; eexists; (split; [vm_compute; reflexivity|]).
  - eapply (proj1 (X10_failure_leaves_its_code_in_errno 7%nat 2%positive
                     w_locked _)).
    vm_compute; reflexivity.
  - eapply (proj1 (proj2 (X10_failure_leaves_its_code_in_errno 8%nat
                            2%positive w_locked _))).
    vm_compute; reflexivity.
  - eapply (proj2 (proj2 (X10_failure_leaves_its_code_in_errno 8%nat
                            2%positive w_unlocked_faulty _))).
    vm_compute; reflexivity.
Defined.

(** ** Ownership *)

(** X11. Mutual exclusion: [lockMutex] returns 0 only on a mutex that
    nobody held, and the caller is then its owner; in particular it never
    returns 0 on a mutex that some thread holds. *)
Theorem X11_lock_succeeds_only_on_a_free_mutex
    (t : tid) (p : ptr) (w w' : world) :
  lockMutex t p w = Ret 0 w' →
  ∃ m ty, p = Some m ∧
    heap w !! m = Some (Mutex ty None) ∧
    heap w' = <[m := Mutex ty (Some t)]> (heap w).
Proof. intros Hrun%lockMutex_inv. inversion Hrun; subst. eauto. Qed.

Lemma X11_lock_succeeds_only_on_a_free_mutex_witness :
  ∃ w', lockMutex 8%nat (Some 2%positive) w_two = Ret 0 w' ∧
    ∃ m ty, Some 2%positive = Some m ∧
      heap w_two !! m = Some (Mutex ty None) ∧
      heap w' = <[m := Mutex ty (Some 8%nat)]> (heap w_two).
Proof.
  eexists. split; [vm_compute; reflexivity|].
  apply (X11_lock_succeeds_only_on_a_free_mutex 8%nat (Some 2%positive) w_two).
  vm_compute; reflexivity.
Defined.

(** X12. Only the owner releases.  On the error-checking mutexes that
    [createMutex] sets up (every mutex in the heap is one), [unlockMutex]
    returns 0 only when the calling thread held the mutex, which is then
    free. *)
Theorem X12_unlock_succeeds_only_for_the_owner
    (t : tid) (p : ptr) (w w' : world) :
  all_errorcheck w →
  unlockMutex t p w = Ret 0 w' →
  ∃ m, p = Some m ∧
    heap w !! m = Some (Mutex PTHREAD_MUTEX_ERRORCHECK (Some t)) ∧
    heap w' = <[m := Mutex PTHREAD_MUTEX_ERRORCHECK None]> (heap w).
Proof.
  intros Hall Hrun%unlockMutex_inv. inversion Hrun; subst.
  match goal with
  | Hm : heap w !! _ = Some (Mutex _ (Some t)) |- _ =>
      pose proof (Hall _ _ _ Hm); subst
  end.
  eauto.
Qed.

Lemma X12_unlock_succeeds_only_for_the_owner_witness :
  ∃ w', unlockMutex 7%nat (Some 3%positive) w_two = Ret 0 w' ∧
    ∃ m, Some 3%positive = Some m ∧
      heap w_two !! m = Some (Mutex PTHREAD_MUTEX_ERRORCHECK (Some 7%nat)) ∧
      heap w' = <[m := Mutex PTHREAD_MUTEX_ERRORCHECK None]> (heap w_two).
Proof.
  eexists. split; [vm_compute; reflexivity|].
  apply (X12_unlock_succeeds_only_for_the_owner 7%nat (Some 3%positive) w_two).
  - intros a ty o. unfold w_two. cbn [heap]. intros Ha.
    apply lookup_insert_Some in Ha as [[_ [= <- _]]|[_ Ha]]; [reflexivity|].
    apply lookup_singleton_Some in Ha as [_ [= <- _]]. reflexivity.
  - vm_compute; reflexivity.
Defined.

(** X13. Only [lockMutex] can make the caller wait.  [unlockMutex],
    [destroyMutex] (whose probe is [pthread_mutex_trylock]) and
    [createMutex] never do; [lockMutex] waits exactly when the mutex is
    held, by another thread or, on a mutex that is not error-checking, by
    the caller itself. *)
Theorem X13_only_lock_waits (t : tid) (p : ptr) (w : world) :
  unlockMutex t p w ≠ Blocked ∧
  destroyMutex t p w ≠ Blocked ∧
  createMutex t w ≠ Blocked ∧
  (lockMutex t p w = Blocked ↔
   ∃ m ty o, p = Some m ∧ heap w !! m = Some (Mutex ty (Some o)) ∧
     (o ≠ t ∨ ty = PTHREAD_MUTEX_NORMAL)).
Proof.
  split_and!.
  - explore_handle p w; done.
  - explore_handle p w; done.
  - pose proof (createMutex_returns t w) as Hpost. intros Hb.
    by rewrite Hb in Hpost.
  - split.
    + destruct p as [m|]; [|by rewrite lockMutex_NULL].
      destruct (heap w !! m) as [[|ty|ty [o|]]|] eqn:Hm; try by exec.
      intros Hb. exists m, ty, o. split_and!; [done..|].
      destruct (decide (o = t)) as [->|]; [|by left]. right.
      destruct ty; [done|]. by rewrite (lockMutex_relock _ _ _ Hm) in Hb.
    + intros (m & ty & o & -> & Hm & [Ho| ->]).
      * by eapply lockMutex_contended.
      * destruct (decide (o = t)) as [->|].
        -- by apply lockMutex_relock_normal.
        -- by eapply lockMutex_contended.
Qed.

(** X14. Two handles from two calls of [createMutex] are different, and
    both are unlocked after the second call. *)
Theorem X14_createMutex_twice_distinct
    (t t' : tid) (m1 m2 : addr) (w w1 w2 : world) :
  createMutex t w = Ret (Some m1) w1 →
  createMutex t' w1 = Ret (Some m2) w2 →
  m1 ≠ m2 ∧
  state_of w2 (Some m1) = UNLOCKED ∧
  state_of w2 (Some m2) = UNLOCKED.
Proof.
  intros Hrun1 Hrun2.
  pose proof (createMutex_returns t w) as Hpost1.
  pose proof (createMutex_returns t' w1) as Hpost2.
  rewrite Hrun1 in Hpost1. rewrite Hrun2 in Hpost2.
  destruct Hpost1 as (? & _ & _ & _ & Hheap1).
  destruct Hpost2 as (? & _ & _ & Hfree2 & Hheap2).
  assert (m1 ≠ m2) as Hne.
  { intros ->. by rewrite Hheap1, lookup_insert_eq in Hfree2. }
  split; [done|]. unfold state_of. rewrite Hheap2, Hheap1. split.
  - by rewrite lookup_insert_ne, lookup_insert_eq by done.
  - by rewrite lookup_insert_eq.
Qed.

Lemma X14_createMutex_twice_distinct_witness :
  ∃ w1 w2, createMutex 7%nat w_empty = Ret (Some 2%positive) w1 ∧
    createMutex 8%nat w1 = Ret (Some 4%positive) w2 ∧
    2%positive ≠ 4%positive ∧
    state_of w2 (Some 2%positive) = UNLOCKED ∧
    state_of w2 (Some 4%positive) = UNLOCKED.
Proof.
  eexists _, _. split; [vm_compute; reflexivity|].
  split; [vm_compute; reflexivity|].
  eapply (X14_createMutex_twice_distinct 7%nat 8%nat 2%positive 4%positive
            w_empty).
  - vm_compute; reflexivity.
  - vm_compute; reflexivity.
Defined.

Lemma X13_only_lock_waits_witness :
  lockMutex 8%nat (Some 3%positive) w_two = Blocked ∧
  lockMutex 7%nat (Some 3%positive) w_two ≠ Blocked.
Proof.
  split.
  - apply (proj2 (proj2 (proj2 (proj2
             (X13_only_lock_waits 8%nat (Some 3%positive) w_two))))).
    exists 3%positive, PTHREAD_MUTEX_ERRORCHECK, 7%nat.
    split_and!; [reflexivity | vm_compute; reflexivity | left; lia].
  - intros Hb.
    apply (proj1 (proj2 (proj2 (proj2
             (X13_only_lock_waits 7%nat (Some 3%positive) w_two))))) in Hb.
    vm_compute in Hb. destruct Hb as (m & ty & o & [= <-] & [= <- <-] & [?|?]);
      [lia | discriminate].
Defined.

(** X15. The heap holds error-checking mutexes only, and keeps doing so:
    if every mutex is of type [PTHREAD_MUTEX_ERRORCHECK] before one of the
    four public operations, every mutex is after it.  [createMutex] adds
    mutexes of that type only, and no operation changes a type. *)
Theorem X15_mutexes_stay_errorcheck (t : tid) (w : world) :
  all_errorcheck w →
  (∀ p r w',
     lockMutex t p w = Ret r w' ∨ unlockMutex t p w = Ret r w' ∨
       destroyMutex t p w = Ret r w' →
     all_errorcheck w') ∧
  (∀ r w', createMutex t w = Ret r w' → all_errorcheck w').
Proof.
  intros Hall. split.
  - intros p r w'
      [Hrun%lockMutex_inv|[Hrun%unlockMutex_inv|Hrun%destroyMutex_inv]];
      inversion Hrun; subst; try done; intros a ty' o' Ha; cbn [heap] in Ha.
    + apply lookup_insert_Some in Ha as [[-> [= <- <-]]|[? Ha]]; eauto.
    + apply lookup_insert_Some in Ha as [[-> [= <- <-]]|[? Ha]]; eauto.
    + apply lookup_delete_Some in Ha as [? Ha]; eauto.
  - intros r w' Hrun.
    pose proof (createMutex_returns t w) as Hpost. rewrite Hrun in Hpost.
    destruct Hpost as (evs & _ & _ & Hpost). intros a ty o Ha.
    destruct r as [m|].
    + destruct Hpost as [_ Hheap]. rewrite Hheap in Ha.
      apply lookup_insert_Some in Ha as [[-> [= <- <-]]|[? Ha]]; eauto.
    + destruct Hpost as [_ [Hheap|(a' & c & _ & _ & Hheap & _)]];
        rewrite Hheap in Ha; [by eauto|].
      apply lookup_insert_Some in Ha as [[-> [=]]|[? Ha]]; eauto.
Qed.

Lemma X15_mutexes_stay_errorcheck_witness :
  (∃ w', lockMutex 8%nat (Some 2%positive) w_two = Ret 0 w' ∧
     all_errorcheck w') ∧
  (∃ r w', createMutex 8%nat w_two = Ret r w' ∧ all_errorcheck w').
Proof.
  assert (all_errorcheck w_two) as Hall.
  { intros a ty o. unfold w_two. cbn [heap]. intros Ha.
    apply lookup_insert_Some in Ha as [[_ [= <- _]]|[_ Ha]]; [reflexivity|].
    apply lookup_singleton_Some in Ha as [_ [= <- _]]. reflexivity. }
  destruct (X15_mutexes_stay_errorcheck 8%nat w_two Hall) as [Hops Hcreate].
  split.
  - eexists. split; [vm_compute; reflexivity|].
    apply (Hops (Some 2%positive) 0). left. vm_compute; reflexivity.
  - eexists _, _. split; [vm_compute; reflexivity|].
    eapply Hcreate. vm_compute; reflexivity.
Defined.

(** ** Composition *)

(** X16. Hand-over between two threads.  On an unlocked handle, [t1]
    locks; a [lockMutex] by another thread [t2] then waits; [t1] unlocks;
    the [lockMutex] by [t2] now returns 0 and [t2] holds the handle. *)
Theorem X16_lock_hand_over (t1 t2 : tid) (p : ptr) (w : world) :
  state_of w p = UNLOCKED → t1 ≠ t2 →
  ∃ w1 w2 w3,
    lockMutex t1 p w = Ret 0 w1 ∧
    lockMutex t2 p w1 = Blocked ∧
    unlockMutex t1 p w1 = Ret 0 w2 ∧
    lockMutex t2 p w2 = Ret 0 w3 ∧
    state_of w3 p = LOCKED t2.
Proof.
  intros (m & -> & Hm)%state_of_UNLOCKED Hne.
  rewrite (lockMutex_unlocked _ _ _ _ Hm). eexists _, _, _.
  split; [done|]. split.
  { eapply lockMutex_contended; [apply lookup_insert_eq | done]. }
  erewrite unlockMutex_owner by apply lookup_insert_eq.
  split; [done|].
  erewrite lockMutex_unlocked by apply lookup_insert_eq.
  split; [done|]. apply state_of_insert.
Qed.

Lemma X16_lock_hand_over_witness :
  ∃ w1 w2 w3,
    lockMutex 7%nat (Some 2%positive) w_unlocked = Ret 0 w1 ∧
    lockMutex 8%nat (Some 2%positive) w1 = Blocked ∧
    unlockMutex 7%nat (Some 2%positive) w1 = Ret 0 w2 ∧
    lockMutex 8%nat (Some 2%positive) w2 = Ret 0 w3 ∧
    state_of w3 (Some 2%positive) = LOCKED 8%nat.
Proof.
  apply (X16_lock_hand_over 7%nat 8%nat (Some 2%positive) w_unlocked).
  - vm_compute; reflexivity.
  - lia.
Defined.

(** ** What [errno] says after a failed [createMutex] *)

(** X17. A failed [createMutex] need not leave its cause in [errno].  When
    the allocation of the handle fails, or [pthread_mutex_init] fails with
    code [c], and the teardown of the attribute that follows succeeds,
    [createMutex] returns [NULL] with the heap as it was and one diagnostic
    carrying the nonzero code, but the caller's [errno] is 0 on return:
    [destroyMutexAttribute] assigned it the result of
    [pthread_mutexattr_destroy]. *)
Theorem X17_createMutex_failure_can_clear_errno
    (t : tid) (w : world) (c : Z) (fs : list Z) :
  c ≠ 0 →
  (faults w = 0 :: 0 :: 0 :: c :: 0 :: fs →
   ∃ w', createMutex t w = Ret NULL w' ∧
     errno_of t w' = 0 ∧ heap w' = heap w ∧
     log w' = log w ++ [Report ENOMEM __FILE__ "createMutex"
                          (Some "Could not allocate memory for mutex.")]) ∧
  (faults w = 0 :: 0 :: 0 :: 0 :: c :: 0 :: fs →
   ∃ w', createMutex t w = Ret NULL w' ∧
     errno_of t w' = 0 ∧ heap w' = heap w ∧
     log w' = log w ++ [Report c __FILE__ "createMutex"
                          (Some "Could not initialize mutex.")]).
Proof.
  intros Hc. split; intros Hf; follow_plan Hf.
  - eexists. split; [done|]. norm_trace. rewrite log_World, errno_of_set.
    cbn [heap reports omap]. split_and!; [done| |done]. heap_eq.
  - eexists. split; [done|]. norm_trace. rewrite log_World, errno_of_set.
    cbn [heap reports omap]. split_and!; [done| |done]. heap_eq.
Qed.

Lemma X17_createMutex_failure_can_clear_errno_witness :
  (∃ w', createMutex 7%nat w_no_memory = Ret NULL w' ∧
     errno_of 7%nat w' = 0 ∧ heap w' = heap w_no_memory ∧
     log w' = log w_no_memory ++
       [Report ENOMEM __FILE__ "createMutex"
          (Some "Could not allocate memory for mutex.")]) ∧
  (∃ w', createMutex 7%nat w_no_init = Ret NULL w' ∧
     errno_of 7%nat w' = 0 ∧ heap w' = heap w_no_init ∧
     log w' = log w_no_init ++
       [Report EPERM __FILE__ "createMutex"
          (Some "Could not initialize mutex.")]).
Proof.
  split.
  - apply (proj1 (X17_createMutex_failure_can_clear_errno 7%nat w_no_memory
                    ENOMEM [] ltac:(vm_compute; lia))).
    reflexivity.
  - apply (proj2 (X17_createMutex_failure_can_clear_errno 7%nat w_no_init
                    EPERM [] ltac:(vm_compute; lia))).
    reflexivity.
Defined.
